(** * Three-piece tic-tac-toe (placement, then movement): the rules engine
    of [src/app/pages/game/game.page.ts], class [GamePage].

    The component is embedded shallowly.  Each method of the class becomes a
    function from the component's fields to its fields afterwards.  A read or
    a write of [this.board[r][c].value] outside the grid raises a JavaScript
    [TypeError] (property access on [undefined]); methods that index the
    board therefore return a [Result].  Row and column indices are natural
    numbers: an index that is negative or not an integer selects no array
    element either, and behaves like one that is too large. *)

From stdpp Require Import base option list strings.

Open Scope string_scope.

(** ** Data model *)

(** [type CellValue = '' | 'X' | 'O'] *)
Inductive CellValue : Type :=
  | Blank   (* '' *)
  | SymX    (* 'X' *)
  | SymO.   (* 'O' *)

#[global] Instance CellValue_eq_dec : EqDecision CellValue.
Proof. solve_decision. Defined.

(** [class Cell { value }] *)
Record Cell : Type := mkCell { value : CellValue }.

(** The two [Player] objects are created once by the field initialisers
    ([new Player('X')], [new Player('O')]) and no method assigns [symbol] or
    replaces the objects; [currentPlayer] is a reference to one of the two.
    A reference is therefore a tag, [symbol] a function of the tag, and the
    mutable [count] of each object a field of the component's state. *)
Inductive PlayerRef : Type :=
  | xPlayer
  | oPlayer.

#[global] Instance PlayerRef_eq_dec : EqDecision PlayerRef.
Proof. solve_decision. Defined.

Definition symbol (p : PlayerRef) : CellValue :=
  match p with
  | xPlayer => SymX
  | oPlayer => SymO
  end.

Definition other (p : PlayerRef) : PlayerRef :=
  match p with
  | xPlayer => oPlayer
  | oPlayer => xPlayer
  end.

Abbreviation Board := (list (list Cell)).

(** The fields of [GamePage]. *)
Record GamePage : Type := mkGamePage {
  board : Board;
  xPlayer_count : nat;                 (* this.xPlayer.count *)
  oPlayer_count : nat;                 (* this.oPlayer.count *)
  currentPlayer : PlayerRef;
  winner : CellValue;
  message : string;
  selectedCell : option (nat * nat)    (* { row, col } | null *)
}.

(** [p.count] for the object that [p] refers to. *)
Definition count (s : GamePage) (p : PlayerRef) : nat :=
  match p with
  | xPlayer => xPlayer_count s
  | oPlayer => oPlayer_count s
  end.

(** ** Exceptions *)

Inductive Result (A : Type) : Type :=
  | Ok (a : A)
  | TypeError.

Arguments Ok {A} a.
Arguments TypeError {A}.

Definition bind {A B : Type} (m : Result A) (k : A -> Result B) : Result B :=
  match m with
  | Ok a => k a
  | TypeError => TypeError
  end.

Notation "'do' x <- m ; k" := (bind m (fun x => k))
  (at level 10, x name, m at level 100, k at level 200,
   format "'[v' 'do'  x  <-  m ; '/' k ']'").

(** ** Field updates *)

Definition set_board (b : Board) (s : GamePage) : GamePage :=
  mkGamePage b (xPlayer_count s) (oPlayer_count s) (currentPlayer s)
    (winner s) (message s) (selectedCell s).

Definition set_currentPlayer (p : PlayerRef) (s : GamePage) : GamePage :=
  mkGamePage (board s) (xPlayer_count s) (oPlayer_count s) p
    (winner s) (message s) (selectedCell s).

Definition set_winner (w : CellValue) (s : GamePage) : GamePage :=
  mkGamePage (board s) (xPlayer_count s) (oPlayer_count s) (currentPlayer s)
    w (message s) (selectedCell s).

Definition set_message (m : string) (s : GamePage) : GamePage :=
  mkGamePage (board s) (xPlayer_count s) (oPlayer_count s) (currentPlayer s)
    (winner s) m (selectedCell s).

Definition set_selectedCell (c : option (nat * nat)) (s : GamePage) : GamePage :=
  mkGamePage (board s) (xPlayer_count s) (oPlayer_count s) (currentPlayer s)
    (winner s) (message s) c.

(** [this.currentPlayer.count++]: the object behind the reference changes,
    so the count seen through [xPlayer] or [oPlayer] changes with it. *)
Definition incr_currentPlayer_count (s : GamePage) : GamePage :=
  match currentPlayer s with
  | xPlayer =>
      mkGamePage (board s) (S (xPlayer_count s)) (oPlayer_count s)
        (currentPlayer s) (winner s) (message s) (selectedCell s)
  | oPlayer =>
      mkGamePage (board s) (xPlayer_count s) (S (oPlayer_count s))
        (currentPlayer s) (winner s) (message s) (selectedCell s)
  end.

(** ** Board access *)

(** [b[r][c].value] as an expression. *)
Definition cellValue (b : Board) (r c : nat) : Result CellValue :=
  match b !! r with
  | None => TypeError
  | Some row =>
      match row !! c with
      | None => TypeError
      | Some cell => Ok (value cell)
      end
  end.

(** [b[r][c].value = v] as a statement. *)
Definition setCellValue (b : Board) (r c : nat) (v : CellValue) : Result Board :=
  match b !! r with
  | None => TypeError
  | Some row =>
      match row !! c with
      | None => TypeError
      | Some _ => Ok (<[r := <[c := mkCell v]> row]> b)
      end
  end.

(** JavaScript truthiness of a [CellValue]: only [''] is falsy. *)
Definition truthy (v : CellValue) : bool :=
  match v with
  | Blank => false
  | _ => true
  end.

(** The text a [CellValue] contributes to a template literal. *)
Definition text (v : CellValue) : string :=
  match v with
  | Blank => ""
  | SymX => "X"
  | SymO => "O"
  end.

(** ** Win detection *)

Abbreviation Line := (CellValue * CellValue * CellValue)%type.

Definition readLine (b : Board) (p0 p1 p2 : nat * nat) : Result Line :=
  do v0 <- cellValue b p0.1 p0.2;
  do v1 <- cellValue b p1.1 p1.2;
  do v2 <- cellValue b p2.1 p2.2;
  Ok (v0, v1, v2).

Definition getLines (b : Board) : Result (list Line) :=
  (* Rows *)
  do l0 <- readLine b (0, 0) (0, 1) (0, 2);
  do l1 <- readLine b (1, 0) (1, 1) (1, 2);
  do l2 <- readLine b (2, 0) (2, 1) (2, 2);
  (* Columns *)
  do l3 <- readLine b (0, 0) (1, 0) (2, 0);
  do l4 <- readLine b (0, 1) (1, 1) (2, 1);
  do l5 <- readLine b (0, 2) (1, 2) (2, 2);
  (* Diagonals *)
  do l6 <- readLine b (0, 0) (1, 1) (2, 2);
  do l7 <- readLine b (0, 2) (1, 1) (2, 0);
  Ok [l0; l1; l2; l3; l4; l5; l6; l7].

(** The test of the loop body:
    [line[0] !== '' && line[0] === line[1] && line[1] === line[2]]. *)
Definition lineWins (l : Line) : bool :=
  let '(v0, v1, v2) := l in
  bool_decide (v0 <> Blank) && bool_decide (v0 = v1) && bool_decide (v1 = v2).

(** The [for (let line of lines)] loop of [checkWinner], with its [return]. *)
Fixpoint scanLines (lines : list Line) (s : GamePage) : GamePage :=
  match lines with
  | [] => s
  | line :: rest =>
      if lineWins line then
        let s1 := set_winner line.1.1 s in
        set_message ("Player " +:+ text (winner s1) +:+ " wins!") s1
      else scanLines rest s
  end.

Definition checkWinner (s : GamePage) : Result GamePage :=
  do lines <- getLines (board s);
  Ok (scanLines lines s).

(** ** Turn switching *)

Definition switchPlayer (s : GamePage) : GamePage :=
  set_currentPlayer
    (if decide (symbol (currentPlayer s) = SymX) then oPlayer else xPlayer) s.

(** ** Placement, selection, movement *)

Definition handlePlace (s : GamePage) (rowIndex colIndex : nat) : Result GamePage :=
  do v <- cellValue (board s) rowIndex colIndex;
  if decide (v <> Blank) then Ok s
  else
    let sym := symbol (currentPlayer s) in
    if decide (count s (currentPlayer s) < 3) then
      do b <- setCellValue (board s) rowIndex colIndex sym;
      let s1 := incr_currentPlayer_count (set_board b s) in
      do s2 <- checkWinner s1;
      if truthy (winner s2) then Ok s2 else Ok (switchPlayer s2)
    else Ok s.

Definition handleMove (s : GamePage) (rowIndex colIndex : nat) : Result GamePage :=
  match selectedCell s with
  | None => TypeError   (* destructuring [null] *)
  | Some (row, col) =>
      do v <- cellValue (board s) rowIndex colIndex;
      if bool_decide (v = symbol (currentPlayer s))
         && (bool_decide (rowIndex <> row) || bool_decide (colIndex <> col))
      then Ok (set_selectedCell (Some (rowIndex, colIndex)) s)
      else
        do v' <- cellValue (board s) rowIndex colIndex;
        if decide (v' = Blank) then
          do moved <- cellValue (board s) row col;
          do b1 <- setCellValue (board s) rowIndex colIndex moved;
          do b2 <- setCellValue b1 row col Blank;
          let s1 := set_selectedCell None (set_board b2 s) in
          do s2 <- checkWinner s1;
          if truthy (winner s2) then Ok s2 else Ok (switchPlayer s2)
        else Ok s
  end.

Definition onSelectPiece (s : GamePage) (rowIndex colIndex : nat) : Result GamePage :=
  do v <- cellValue (board s) rowIndex colIndex;
  if decide (v = symbol (currentPlayer s))
  then Ok (set_selectedCell (Some (rowIndex, colIndex)) s)
  else Ok s.

(** ** The dispatcher *)

Definition onCellClick (s : GamePage) (rowIndex colIndex : nat) : Result GamePage :=
  if truthy (winner s) then Ok s
  else
    match selectedCell s with
    | Some _ => handleMove s rowIndex colIndex
    | None =>
        if decide (3 <= count s (currentPlayer s))
        then onSelectPiece s rowIndex colIndex
        else handlePlace s rowIndex colIndex
    end.

(** ** Construction and reset *)

Definition emptyBoard : Board :=
  [ [mkCell Blank; mkCell Blank; mkCell Blank];
    [mkCell Blank; mkCell Blank; mkCell Blank];
    [mkCell Blank; mkCell Blank; mkCell Blank] ].

(** The state built by the field initialisers of the class. *)
Definition initial : GamePage :=
  mkGamePage emptyBoard 0 0 xPlayer Blank "" None.

Definition resetGame (s : GamePage) : GamePage :=
  let s := set_board emptyBoard s in
  let s := mkGamePage (board s) 0 (oPlayer_count s) (currentPlayer s)
             (winner s) (message s) (selectedCell s) in
  let s := mkGamePage (board s) (xPlayer_count s) 0 (currentPlayer s)
             (winner s) (message s) (selectedCell s) in
  let s := set_currentPlayer xPlayer s in
  let s := set_winner Blank s in
  let s := set_message "" s in
  set_selectedCell None s.

(** ** Specification vocabulary *)

(** A board of three rows of three cells, written out. *)
Definition grid (a b c d e f g h i : CellValue) : Board :=
  [ [mkCell a; mkCell b; mkCell c];
    [mkCell d; mkCell e; mkCell f];
    [mkCell g; mkCell h; mkCell i] ].

(** The shape every board of the component has. *)
Definition board_ok (b : Board) : Prop :=
  length b = 3 /\ Forall (fun row => length row = 3) b.

(** Number of cells of the board whose value satisfies [p]. *)
Definition countCells (p : CellValue -> bool) (b : Board) : nat :=
  length (List.filter (fun cell => p (value cell)) (concat b)).

Definition holds (v : CellValue) : CellValue -> bool :=
  fun w => bool_decide (w = v).

Definition ind (t : bool) : nat := if t then 1 else 0.

(** What the loop of [checkWinner] does when it returns from its body. *)
Definition declare (v : CellValue) (s : GamePage) : GamePage :=
  set_message ("Player " +:+ text v +:+ " wins!") (set_winner v s).

(** The tail shared by [handlePlace] and [handleMove]:
    [this.checkWinner(); if (!this.winner) { this.switchPlayer(); }]. *)
Definition concludeTurn (s1 : GamePage) : Result GamePage :=
  do s2 <- checkWinner s1;
  if truthy (winner s2) then Ok s2 else Ok (switchPlayer s2).

(** A selected cell holds a piece of the player to move. *)
Definition selection_ok (s : GamePage) : Prop :=
  forall r c, selectedCell s = Some (r, c) ->
    cellValue (board s) r c = Ok (symbol (currentPlayer s)).

(** The pieces on the board are the pieces counted as placed. *)
Definition counts_ok (s : GamePage) : Prop :=
  countCells (holds SymX) (board s) = xPlayer_count s /\
  countCells (holds SymO) (board s) = oPlayer_count s.

Definition bounds_ok (s : GamePage) : Prop :=
  xPlayer_count s <= 3 /\ oPlayer_count s <= 3.

Definition inv (s : GamePage) : Prop :=
  board_ok (board s) /\ selection_ok s /\ counts_ok s /\ bounds_ok s.

(** States the component can be in: built by the initialisers, then changed
    only by clicks that return and by resets.  (Under [inv] a click raises
    only at its first board read, before any field is written, so a click
    that raises leaves a state that is already in this set.) *)
Inductive reachable : GamePage -> Prop :=
  | reachable_initial : reachable initial
  | reachable_click s r c s' :
      reachable s -> onCellClick s r c = Ok s' -> reachable s'
  | reachable_reset s :
      reachable s -> reachable (resetGame s).

(** A sequence of clicks, stopping at the first one that raises. *)
Fixpoint clicks (s : GamePage) (l : list (nat * nat)) : Result GamePage :=
  match l with
  | [] => Ok s
  | (r, c) :: rest => do s' <- onCellClick s r c; clicks s' rest
  end.

(** ** Sample games *)

(** X at (0,0) and (0,1), O at (1,0) and (1,1); X to move. *)
Definition two_each : GamePage :=
  mkGamePage (grid SymX SymX Blank  SymO SymO Blank  Blank Blank Blank)
    2 2 xPlayer Blank "" None.

(** [two_each] with a third X written at (0,2) and counted, as
    [handlePlace] has it when it calls [checkWinner]. *)
Definition top_row_placed : GamePage :=
  mkGamePage (grid SymX SymX SymX  SymO SymO Blank  Blank Blank Blank)
    3 2 xPlayer Blank "" None.

(** [two_each] after X has completed the top row. *)
Definition top_row_won : GamePage :=
  mkGamePage (grid SymX SymX SymX  SymO SymO Blank  Blank Blank Blank)
    3 2 xPlayer SymX "Player X wins!" None.

(** All six pieces placed without a line; X to move. *)
Definition all_placed : GamePage :=
  mkGamePage (grid SymX SymX Blank  SymO SymO Blank  Blank SymO SymX)
    3 3 xPlayer Blank "" None.

(** [all_placed] after X has picked up the piece at (0,0). *)
Definition picked_up : GamePage :=
  set_selectedCell (Some (0, 0)) all_placed.

(** The clicks that lead from [initial] to [picked_up]. *)
Definition opening : list (nat * nat) :=
  [(0, 0); (1, 0); (0, 1); (1, 1); (2, 2); (2, 1); (0, 0)].

(** ** Vocabulary for the further properties *)

(** States the component can be in when its public methods are called in
    any order: [onCellClick], [resetGame] and also [onSelectPiece], which
    the class does not declare private. *)
Inductive reachable_public : GamePage -> Prop :=
  | public_initial : reachable_public initial
  | public_click s r c s' :
      reachable_public s -> onCellClick s r c = Ok s' -> reachable_public s'
  | public_select s r c s' :
      reachable_public s -> onSelectPiece s r c = Ok s' -> reachable_public s'
  | public_reset s :
      reachable_public s -> reachable_public (resetGame s).

(** The triples of a board that pass the test of [checkWinner], in the
    order in which the loop meets them. *)
Definition wonLines (b : Board) : list Line :=
  match getLines b with
  | Ok lines => List.filter lineWins lines
  | TypeError => []
  end.

(** How [winner] and [message] relate to the board and to the turn. *)
Definition winner_ok (s : GamePage) : Prop :=
  (winner s = Blank -> message s = "" /\ wonLines (board s) = []) /\
  (winner s <> Blank ->
     winner s = symbol (currentPlayer s) /\
     message s = "Player " +:+ text (winner s) +:+ " wins!" /\
     selectedCell s = None /\
     wonLines (board s) <> [] /\
     forall l, In l (wonLines (board s)) -> l = (winner s, winner s, winner s)).

(** How the counts relate to the turn and to the selection. *)
Definition phase_ok (s : GamePage) : Prop :=
  oPlayer_count s <= xPlayer_count s <= oPlayer_count s + 1 /\
  (selectedCell s <> None ->
     xPlayer_count s = 3 /\ oPlayer_count s = 3 /\ winner s = Blank) /\
  (winner s = Blank ->
     (currentPlayer s = xPlayer -> xPlayer_count s = oPlayer_count s) /\
     (currentPlayer s = oPlayer ->
        xPlayer_count s = oPlayer_count s + 1 \/
        xPlayer_count s = 3 /\ oPlayer_count s = 3)).

(** ** Facts about board access *)

Section BoardAccess.
Implicit Types (b : Board) (r c : nat) (v w : CellValue).

Lemma grid_ok a0 a1 a2 a3 a4 a5 a6 a7 a8 :
  board_ok (grid a0 a1 a2 a3 a4 a5 a6 a7 a8).
Proof. split; [reflexivity | repeat constructor]. Qed.

Lemma board_ok_grid b :
  board_ok b ->
  exists a0 a1 a2 a3 a4 a5 a6 a7 a8, b = grid a0 a1 a2 a3 a4 a5 a6 a7 a8.
Proof.
  intros [Hlen Hrows].
  destruct b as [|r0 [|r1 [|r2 [|? ?]]]]; simplify_eq/=.
  inversion_clear Hrows as [|? ? H0 Hrows'].
  inversion_clear Hrows' as [|? ? H1 Hrows''].
  inversion_clear Hrows'' as [|? ? H2 _].
  destruct r0 as [|[a0] [|[a1] [|[a2] [|? ?]]]]; simplify_eq/=.
  destruct r1 as [|[a3] [|[a4] [|[a5] [|? ?]]]]; simplify_eq/=.
  destruct r2 as [|[a6] [|[a7] [|[a8] [|? ?]]]]; simplify_eq/=.
  by exists a0, a1, a2, a3, a4, a5, a6, a7, a8.
Qed.

Lemma cellValue_Ok_lt b r c v :
  board_ok b -> cellValue b r c = Ok v -> r < 3 /\ c < 3.
Proof.
  intros [Hlen Hrows]. unfold cellValue.
  destruct (b !! r) as [row|] eqn:Hr; [|done].
  destruct (row !! c) as [cell|] eqn:Hc; [|done]. intros _.
  apply lookup_lt_Some in Hr as Hr'. apply lookup_lt_Some in Hc.
  rewrite Forall_lookup in Hrows. specialize (Hrows _ _ Hr). simpl in Hrows.
  lia.
Qed.

Lemma cellValue_in_range b r c :
  board_ok b -> r < 3 -> c < 3 -> exists v, cellValue b r c = Ok v.
Proof.
  intros [Hlen Hrows] Hr Hc. unfold cellValue.
  destruct (lookup_lt_is_Some_2 b r) as [row Hrow]; [lia|].
  rewrite Hrow. rewrite Forall_lookup in Hrows.
  specialize (Hrows _ _ Hrow). simpl in Hrows.
  destruct (lookup_lt_is_Some_2 row c) as [cell Hcell]; [lia|].
  rewrite Hcell. eauto.
Qed.

Lemma setCellValue_Ok b r c v w :
  cellValue b r c = Ok v -> exists b', setCellValue b r c w = Ok b'.
Proof.
  unfold cellValue, setCellValue.
  destruct (b !! r) as [row|]; [|done].
  destruct (row !! c); [eauto|done].
Qed.

Lemma cellValue_set b r c w b' r' c' :
  setCellValue b r c w = Ok b' ->
  cellValue b' r' c' =
    if decide ((r, c) = (r', c')) then Ok w else cellValue b r' c'.
Proof.
  unfold setCellValue, cellValue.
  destruct (b !! r) as [row|] eqn:Hr; [|done].
  destruct (row !! c) as [cell|] eqn:Hc; [|done].
  intros [= <-].
  apply lookup_lt_Some in Hr as Hr'. apply lookup_lt_Some in Hc as Hc'.
  destruct (decide (r = r')) as [<-|Hne].
  - rewrite list_lookup_insert_eq by done. rewrite Hr.
    destruct (decide (c = c')) as [<-|Hne].
    + rewrite list_lookup_insert_eq by done. by rewrite decide_True.
    + rewrite list_lookup_insert_ne by done.
      rewrite decide_False by congruence. done.
  - rewrite list_lookup_insert_ne by done.
    rewrite decide_False by congruence. done.
Qed.

Lemma setCellValue_board_ok b r c w b' :
  board_ok b -> setCellValue b r c w = Ok b' -> board_ok b'.
Proof.
  intros [Hlen Hrows]. unfold setCellValue.
  destruct (b !! r) as [row|] eqn:Hr; [|done].
  destruct (row !! c) as [cell|] eqn:Hc; [|done].
  intros [= <-]. split.
  - by rewrite length_insert.
  - apply Forall_insert; [done|]. rewrite length_insert.
    rewrite Forall_lookup in Hrows. exact (Hrows _ _ Hr).
Qed.

Lemma filter_insert_length {A} (q : A -> bool) (l : list A) i x y :
  l !! i = Some x ->
  length (List.filter q (<[i:=y]> l)) + ind (q x) =
  length (List.filter q l) + ind (q y).
Proof.
  revert i. induction l as [|z l IH]; intros [|i] Hi; simplify_eq/=.
  - destruct (q x), (q y); simpl; lia.
  - specialize (IH _ Hi). destruct (q z); simpl; lia.
Qed.

Lemma filter_concat_insert_length {A} (q : A -> bool) (l : list (list A)) i x y :
  l !! i = Some x ->
  length (List.filter q (concat (<[i:=y]> l))) + length (List.filter q x) =
  length (List.filter q (concat l)) + length (List.filter q y).
Proof.
  revert i. induction l as [|z l IH]; intros [|i] Hi; simplify_eq/=.
  - rewrite !List.filter_app, !length_app. lia.
  - specialize (IH _ Hi). rewrite !List.filter_app, !length_app. lia.
Qed.

Lemma countCells_set p b r c old new b' :
  cellValue b r c = Ok old ->
  setCellValue b r c new = Ok b' ->
  countCells p b' + ind (p old) = countCells p b + ind (p new).
Proof.
  unfold cellValue, setCellValue, countCells.
  destruct (b !! r) as [row|] eqn:Hr; [|done].
  destruct (row !! c) as [cell|] eqn:Hc; [|done].
  intros [= <-] [= <-].
  pose proof (filter_concat_insert_length (fun cell => p (value cell))
                b r row (<[c:=mkCell new]> row) Hr) as H1.
  pose proof (filter_insert_length (fun cell => p (value cell))
                row c cell (mkCell new) Hc) as H2.
  simpl in H2. lia.
Qed.
End BoardAccess.

(** ** Facts about win detection *)

Section WinDetection.
Implicit Types (s : GamePage) (l : Line) (lines : list Line).

Lemma getLines_grid a0 a1 a2 a3 a4 a5 a6 a7 a8 :
  getLines (grid a0 a1 a2 a3 a4 a5 a6 a7 a8) =
  Ok [ (a0, a1, a2); (a3, a4, a5); (a6, a7, a8);
       (a0, a3, a6); (a1, a4, a7); (a2, a5, a8);
       (a0, a4, a8); (a2, a4, a6) ].
Proof. reflexivity. Qed.

Lemma getLines_ok (b : Board) :
  board_ok b -> exists lines, getLines b = Ok lines.
Proof.
  intros Hb. destruct (board_ok_grid b Hb)
    as (a0 & a1 & a2 & a3 & a4 & a5 & a6 & a7 & a8 & ->).
  rewrite getLines_grid. eauto.
Qed.

Lemma lineWins_true l :
  lineWins l = true <-> l.1.1 = l.1.2 /\ l.1.2 = l.2 /\ l.1.1 <> Blank.
Proof.
  destruct l as [[v0 v1] v2]. unfold lineWins. simpl.
  rewrite !andb_true_iff, !bool_decide_eq_true. tauto.
Qed.

Lemma scanLines_first pre l post s :
  (forall l', l' ∈ pre -> lineWins l' = false) ->
  lineWins l = true ->
  scanLines (pre ++ l :: post) s = declare l.1.1 s.
Proof.
  induction pre as [|l0 pre IH]; intros Hpre Hl; simpl.
  - by rewrite Hl.
  - rewrite (Hpre l0) by left. apply IH; [|done].
    intros l' Hl'. apply Hpre. by right.
Qed.

Lemma scanLines_none lines s :
  (forall l, l ∈ lines -> lineWins l = false) -> scanLines lines s = s.
Proof.
  induction lines as [|l0 lines IH]; intros Hall; simpl; [done|].
  rewrite (Hall l0) by left. apply IH. intros l Hl. apply Hall. by right.
Qed.

(** The loop either leaves the state alone or declares a winner. *)
Lemma scanLines_cases lines s :
  scanLines lines s = s \/
  exists v, v <> Blank /\ scanLines lines s = declare v s.
Proof.
  induction lines as [|l0 lines IH]; simpl; [by left|].
  destruct (lineWins l0) eqn:Hw; [|done].
  right. exists l0.1.1. split; [|done].
  apply lineWins_true in Hw. tauto.
Qed.

Lemma checkWinner_cases s s2 :
  checkWinner s = Ok s2 ->
  s2 = s \/ exists v, v <> Blank /\ s2 = declare v s.
Proof.
  unfold checkWinner. destruct (getLines (board s)) as [lines|]; [|done].
  simpl. intros [= <-]. apply scanLines_cases.
Qed.

Lemma checkWinner_ok s :
  board_ok (board s) -> exists s2, checkWinner s = Ok s2.
Proof.
  intros Hb. unfold checkWinner.
  destruct (getLines_ok _ Hb) as [lines ->]. simpl. eauto.
Qed.
End WinDetection.

(** ** Facts about one turn *)

Section Turn.
Implicit Types (s : GamePage) (r c row col : nat).

Lemma switchPlayer_other s :
  switchPlayer s = set_currentPlayer (other (currentPlayer s)) s.
Proof. unfold switchPlayer. by destruct (currentPlayer s). Qed.

Lemma concludeTurn_ok s1 :
  board_ok (board s1) -> exists s', concludeTurn s1 = Ok s'.
Proof.
  intros Hb. unfold concludeTurn.
  destruct (checkWinner_ok _ Hb) as [s2 ->]. simpl.
  destruct (truthy (winner s2)); eauto.
Qed.

(** The tail changes [winner] and [message] (a win) or [currentPlayer]
    (no win), never both, and nothing else. *)
Lemma concludeTurn_cases s1 s' :
  concludeTurn s1 = Ok s' ->
  (exists v, v <> Blank /\ s' = declare v s1) \/
  (winner s1 <> Blank /\ s' = s1) \/
  (winner s1 = Blank /\ s' = set_currentPlayer (other (currentPlayer s1)) s1).
Proof.
  unfold concludeTurn. destruct (checkWinner s1) as [s2|] eqn:Hcw; [|done].
  simpl. destruct (checkWinner_cases _ _ Hcw) as [->|(v & Hv & ->)].
  - destruct (winner s1) eqn:Hw; simpl; intros [= <-].
    + right; right. by rewrite switchPlayer_other.
    + right; left. by split.
    + right; left. by split.
  - left. exists v. destruct v; [done| |]; simpl in *; by simplify_eq.
Qed.

Lemma concludeTurn_fields s1 s' :
  concludeTurn s1 = Ok s' ->
  board s' = board s1 /\
  xPlayer_count s' = xPlayer_count s1 /\
  oPlayer_count s' = oPlayer_count s1 /\
  selectedCell s' = selectedCell s1 /\
  (winner s' = Blank -> currentPlayer s' = other (currentPlayer s1)) /\
  (winner s' <> Blank -> currentPlayer s' = currentPlayer s1).
Proof.
  intros H. destruct (concludeTurn_cases _ _ H)
    as [(v & Hv & ->)|[[Hw ->]|[Hw ->]]]; simpl; repeat split; try done.
Qed.

Lemma checkWinner_fields s w :
  checkWinner s = Ok w ->
  board w = board s /\
  xPlayer_count w = xPlayer_count s /\
  oPlayer_count w = oPlayer_count s /\
  currentPlayer w = currentPlayer s /\
  selectedCell w = selectedCell s.
Proof.
  intros H. by destruct (checkWinner_cases _ _ H) as [->|(v & _ & ->)].
Qed.

(** The tail in terms of the state [w] that [checkWinner] returns. *)
Lemma concludeTurn_detail s1 s' :
  concludeTurn s1 = Ok s' ->
  exists w,
    checkWinner s1 = Ok w /\
    winner s' = winner w /\ message s' = message w /\
    board s' = board s1 /\
    xPlayer_count s' = xPlayer_count s1 /\
    oPlayer_count s' = oPlayer_count s1 /\
    selectedCell s' = selectedCell s1 /\
    (winner w = Blank -> currentPlayer s' = other (currentPlayer s1)) /\
    (winner w <> Blank -> currentPlayer s' = currentPlayer s1).
Proof.
  unfold concludeTurn. destruct (checkWinner s1) as [w|] eqn:Hcw; [|done].
  simpl. intros H. exists w. split; [done|].
  destruct (checkWinner_fields _ _ Hcw) as (Eb & Ex & Eo & Ec & Es).
  destruct (winner w) eqn:Hw; simpl in H; injection H as <-;
    rewrite ?switchPlayer_other; simpl; rewrite ?Hw, ?Ec;
    by repeat split.
Qed.

Lemma handlePlace_placed s r c :
  board_ok (board s) ->
  cellValue (board s) r c = Ok Blank ->
  count s (currentPlayer s) < 3 ->
  exists b' s',
    setCellValue (board s) r c (symbol (currentPlayer s)) = Ok b' /\
    concludeTurn (incr_currentPlayer_count (set_board b' s)) = Ok s' /\
    handlePlace s r c = Ok s'.
Proof.
  intros Hb Hcell Hcount.
  destruct (setCellValue_Ok _ _ _ _ (symbol (currentPlayer s)) Hcell)
    as [b' Hset].
  destruct (concludeTurn_ok (incr_currentPlayer_count (set_board b' s)))
    as [s' Hs'].
  { unfold incr_currentPlayer_count. simpl.
    destruct (currentPlayer s); simpl; eapply setCellValue_board_ok; eauto. }
  exists b', s'. split; [done|]. split; [done|].
  unfold handlePlace. rewrite Hcell. simpl.
  rewrite decide_True by done. rewrite Hset. simpl. exact Hs'.
Qed.

Lemma handleMove_moved s r c row col :
  board_ok (board s) ->
  selectedCell s = Some (row, col) ->
  cellValue (board s) row col = Ok (symbol (currentPlayer s)) ->
  cellValue (board s) r c = Ok Blank ->
  exists b1 b2 s',
    setCellValue (board s) r c (symbol (currentPlayer s)) = Ok b1 /\
    setCellValue b1 row col Blank = Ok b2 /\
    concludeTurn (set_selectedCell None (set_board b2 s)) = Ok s' /\
    handleMove s r c = Ok s'.
Proof.
  intros Hb Hsel Hown Hcell.
  destruct (setCellValue_Ok _ _ _ _ (symbol (currentPlayer s)) Hcell)
    as [b1 Hset1].
  assert (Hne : (r, c) <> (row, col)).
  { intros [= -> ->]. rewrite Hown in Hcell.
    by destruct (currentPlayer s). }
  assert (Hown1 : cellValue b1 row col = Ok (symbol (currentPlayer s))).
  { rewrite (cellValue_set _ _ _ _ _ row col Hset1).
    by rewrite decide_False. }
  destruct (setCellValue_Ok _ _ _ _ Blank Hown1) as [b2 Hset2].
  destruct (concludeTurn_ok (set_selectedCell None (set_board b2 s)))
    as [s' Hs'].
  { simpl. eauto using setCellValue_board_ok. }
  exists b1, b2, s'. repeat (split; [done|]).
  unfold handleMove. rewrite Hsel, Hcell. simpl.
  replace (bool_decide (Blank = symbol (currentPlayer s))) with false
    by (by destruct (currentPlayer s)).
  simpl. rewrite Hown. simpl. rewrite Hset1. simpl. rewrite Hset2. simpl.
  exact Hs'.
Qed.
End Turn.

(** ** The invariant of the component *)

Section Invariant.
Implicit Types (s : GamePage) (r c row col : nat).

Lemma inv_initial : inv initial.
Proof.
  split; [apply grid_ok|]. split; [done|]. split; [done|].
  split; simpl; lia.
Qed.

Lemma inv_concludeTurn s1 s' :
  concludeTurn s1 = Ok s' ->
  selectedCell s1 = None ->
  board_ok (board s1) -> counts_ok s1 -> bounds_ok s1 ->
  inv s'.
Proof.
  intros H Hsel Hb Hc Hbd.
  destruct (concludeTurn_fields _ _ H) as (Eb & Ex & Eo & Es & _).
  unfold inv, selection_ok, counts_ok, bounds_ok in *.
  rewrite Eb, Ex, Eo, Es, Hsel. destruct Hb, Hc, Hbd. by repeat split.
Qed.

Lemma handlePlace_inv s r c s' :
  inv s -> selectedCell s = None -> handlePlace s r c = Ok s' -> inv s'.
Proof.
  intros Hinv Hsel H. pose proof H as H0. unfold handlePlace in H0.
  destruct (cellValue (board s) r c) as [v|] eqn:Hcell; [|done].
  simpl in H0. destruct (decide (v <> Blank)) as [|Hv]; [by simplify_eq|].
  assert (v = Blank) as -> by (destruct v; [done|by destruct Hv..]).
  destruct (decide (count s (currentPlayer s) < 3)) as [Hlt|];
    [|by simplify_eq].
  clear H0. destruct Hinv as (Hb & _ & [Hx Ho] & [Bx Bo]).
  destruct (handlePlace_placed s r c Hb Hcell Hlt) as (b' & s'' & Hset & Hct & E).
  rewrite E in H. injection H as ->.
  apply (inv_concludeTurn _ _ Hct).
  - unfold incr_currentPlayer_count. simpl. by destruct (currentPlayer s).
  - unfold incr_currentPlayer_count. simpl.
    destruct (currentPlayer s); simpl; eapply setCellValue_board_ok; eauto.
  - pose proof (countCells_set (holds SymX) _ _ _ _ _ _ Hcell Hset) as Cx.
    pose proof (countCells_set (holds SymO) _ _ _ _ _ _ Hcell Hset) as Co.
    unfold counts_ok, incr_currentPlayer_count. simpl.
    destruct (currentPlayer s); simpl in *; unfold ind in *; simpl in *; lia.
  - unfold bounds_ok, incr_currentPlayer_count. simpl.
    destruct (currentPlayer s); simpl in *; lia.
Qed.

Lemma inv_select s r c :
  inv s ->
  cellValue (board s) r c = Ok (symbol (currentPlayer s)) ->
  inv (set_selectedCell (Some (r, c)) s).
Proof.
  intros (Hb & _ & Hc & Hbd) Hcell.
  split; [exact Hb|]. split; [|split; [exact Hc|exact Hbd]].
  intros r' c' [= <- <-]. exact Hcell.
Qed.

Lemma onSelectPiece_inv s r c s' :
  inv s -> onSelectPiece s r c = Ok s' -> inv s'.
Proof.
  intros Hinv. unfold onSelectPiece.
  destruct (cellValue (board s) r c) as [v|] eqn:Hcell; [|done]. simpl.
  destruct (decide (v = symbol (currentPlayer s))) as [->|];
    intros [= <-]; [|done].
  by apply inv_select.
Qed.

Lemma handleMove_inv s r c s' :
  inv s -> handleMove s r c = Ok s' -> inv s'.
Proof.
  intros Hinv H. pose proof H as H0. unfold handleMove in H0.
  destruct (selectedCell s) as [[row col]|] eqn:Hsel; [|done].
  destruct (cellValue (board s) r c) as [v|] eqn:Hcell; [|done].
  simpl in H0. pose proof Hinv as (Hb & Hs & [Hx Ho] & Hbd).
  destruct (bool_decide (v = symbol (currentPlayer s))
            && (bool_decide (r <> row) || bool_decide (c <> col))) eqn:Hre.
  - injection H0 as <-. apply andb_true_iff in Hre as [Hv _].
    apply bool_decide_eq_true in Hv as ->.
    by apply inv_select.
  - simpl in H0.
    destruct (decide (v = Blank)) as [->|]; [|by injection H0 as <-].
    clear H0. pose proof (Hs _ _ Hsel) as Hown.
    destruct (handleMove_moved s r c row col Hb Hsel Hown Hcell)
      as (b1 & b2 & s'' & Hset1 & Hset2 & Hct & E).
    rewrite E in H. injection H as ->.
    assert (Hown1 : cellValue b1 row col = Ok (symbol (currentPlayer s))).
    { rewrite (cellValue_set _ _ _ _ _ row col Hset1).
      rewrite decide_False; [done|]. intros [= -> ->].
      rewrite Hown in Hcell. by destruct (currentPlayer s). }
    apply (inv_concludeTurn _ _ Hct); simpl.
    + done.
    + eauto using setCellValue_board_ok.
    + pose proof (countCells_set (holds SymX) _ _ _ _ _ _ Hcell Hset1).
      pose proof (countCells_set (holds SymO) _ _ _ _ _ _ Hcell Hset1).
      pose proof (countCells_set (holds SymX) _ _ _ _ _ _ Hown1 Hset2).
      pose proof (countCells_set (holds SymO) _ _ _ _ _ _ Hown1 Hset2).
      unfold counts_ok. simpl. lia.
    + done.
Qed.

Lemma onCellClick_inv s r c s' :
  inv s -> onCellClick s r c = Ok s' -> inv s'.
Proof.
  intros Hinv. unfold onCellClick.
  destruct (truthy (winner s)); [by intros [= <-]|].
  destruct (selectedCell s) as [sel|] eqn:Hsel.
  - by apply handleMove_inv.
  - destruct (decide (3 <= count s (currentPlayer s))).
    + by apply onSelectPiece_inv.
    + by apply handlePlace_inv.
Qed.

Lemma resetGame_initial s : resetGame s = initial.
Proof. reflexivity. Qed.

Lemma reachable_inv s : reachable s -> inv s.
Proof.
  induction 1 as [|s r c s' _ IH Hclick|s _ _].
  - apply inv_initial.
  - by apply (onCellClick_inv s r c).
  - rewrite resetGame_initial. apply inv_initial.
Qed.
End Invariant.

(** ** The dispatcher, case by case *)

Section Dispatch.
Implicit Types (s : GamePage) (r c row col : nat).

Lemma onCellClick_won s r c :
  winner s <> Blank -> onCellClick s r c = Ok s.
Proof. unfold onCellClick. by destruct (winner s). Qed.

Lemma onCellClick_move s r c sel :
  winner s = Blank -> selectedCell s = Some sel ->
  onCellClick s r c = handleMove s r c.
Proof. intros Hw Hsel. unfold onCellClick. by rewrite Hw, Hsel. Qed.

Lemma onCellClick_select s r c :
  winner s = Blank -> selectedCell s = None ->
  3 <= count s (currentPlayer s) ->
  onCellClick s r c = onSelectPiece s r c.
Proof.
  intros Hw Hsel Hc. unfold onCellClick. rewrite Hw, Hsel. simpl.
  by rewrite decide_True.
Qed.

Lemma onCellClick_place s r c :
  winner s = Blank -> selectedCell s = None ->
  count s (currentPlayer s) < 3 ->
  onCellClick s r c = handlePlace s r c.
Proof.
  intros Hw Hsel Hc. unfold onCellClick. rewrite Hw, Hsel. simpl.
  rewrite decide_False; [done|lia].
Qed.

Lemma clicks_won s l :
  winner s <> Blank -> clicks s l = Ok s.
Proof.
  intros Hw. induction l as [|[r c] l IH]; simpl; [done|].
  by rewrite onCellClick_won.
Qed.

Lemma clicks_reachable s l s' :
  reachable s -> clicks s l = Ok s' -> reachable s'.
Proof.
  revert s. induction l as [|[r c] l IH]; simpl; intros s Hs.
  - by intros [= <-].
  - destruct (onCellClick s r c) as [s1|] eqn:H1; [|done]. simpl.
    apply IH. by apply (reachable_click s r c).
Qed.

(** A click that returns does nothing, or selects the clicked cell, or puts
    a piece of the player to move on the clicked, empty cell and concludes
    the turn. *)
Lemma onCellClick_cases s r c s' :
  board_ok (board s) -> selection_ok s ->
  onCellClick s r c = Ok s' ->
  s' = s \/
  s' = set_selectedCell (Some (r, c)) s \/
  (winner s = Blank /\
   exists s1,
     currentPlayer s1 = currentPlayer s /\
     cellValue (board s) r c = Ok Blank /\
     cellValue (board s1) r c = Ok (symbol (currentPlayer s)) /\
     concludeTurn s1 = Ok s').
Proof.
  intros Hb Hs H.
  destruct (decide (winner s = Blank)) as [Hw|Hw];
    [|left; rewrite onCellClick_won in H by done; by simplify_eq].
  destruct (selectedCell s) as [[row col]|] eqn:Hsel.
  - rewrite (onCellClick_move _ _ _ _ Hw Hsel) in H.
    pose proof H as H0. unfold handleMove in H0. rewrite Hsel in H0.
    destruct (cellValue (board s) r c) as [v|] eqn:Hcell; [|done].
    simpl in H0.
    destruct (bool_decide (v = symbol (currentPlayer s))
              && (bool_decide (r <> row) || bool_decide (c <> col))).
    { right; left. by simplify_eq. }
    destruct (decide (v = Blank)) as [->|]; [|left; by simplify_eq].
    clear H0. right; right. split; [done|].
    pose proof (Hs _ _ Hsel) as Hown.
    destruct (handleMove_moved s r c row col Hb Hsel Hown Hcell)
      as (b1 & b2 & s'' & Hset1 & Hset2 & Hct & E).
    rewrite E in H. injection H as ->.
    exists (set_selectedCell None (set_board b2 s)).
    repeat (split; [done|]). split; [|done]. simpl.
    rewrite (cellValue_set _ _ _ _ _ r c Hset2).
    rewrite decide_False.
    + rewrite (cellValue_set _ _ _ _ _ r c Hset1). by rewrite decide_True.
    + intros [= -> ->]. rewrite Hown in Hcell. by destruct (currentPlayer s).
  - destruct (decide (3 <= count s (currentPlayer s))) as [Hc|Hc].
    + rewrite (onCellClick_select _ _ _ Hw Hsel Hc) in H.
      unfold onSelectPiece in H.
      destruct (cellValue (board s) r c) as [v|]; [|done]. simpl in H.
      destruct (decide (v = symbol (currentPlayer s)));
        [right; left|left]; by simplify_eq.
    + assert (Hlt : count s (currentPlayer s) < 3) by lia.
      rewrite (onCellClick_place _ _ _ Hw Hsel Hlt) in H.
      pose proof H as H0. unfold handlePlace in H0.
      destruct (cellValue (board s) r c) as [v|] eqn:Hcell; [|done].
      simpl in H0.
      destruct (decide (v <> Blank)) as [|Hv]; [left; by simplify_eq|].
      assert (v = Blank) as -> by (destruct v; [done|by destruct Hv..]).
      clear H0. right; right. split; [done|].
      destruct (handlePlace_placed s r c Hb Hcell Hlt)
        as (b' & s'' & Hset & Hct & E).
      rewrite E in H. injection H as ->.
      exists (incr_currentPlayer_count (set_board b' s)).
      split; [unfold incr_currentPlayer_count; simpl;
              by destruct (currentPlayer s)|].
      split; [done|]. split; [|done].
      replace (board (incr_currentPlayer_count (set_board b' s))) with b'
        by (unfold incr_currentPlayer_count; simpl;
            by destruct (currentPlayer s)).
      rewrite (cellValue_set _ _ _ _ _ r c Hset). by rewrite decide_True.
Qed.

Lemma countCells_occupied (b : Board) :
  countCells truthy b = countCells (holds SymX) b + countCells (holds SymO) b.
Proof.
  unfold countCells. induction (concat b) as [|[v] l IH]; simpl; [done|].
  destruct v; simpl; lia.
Qed.
End Dispatch.

(** ** Sample games replayed *)

Lemma opening_picked_up : clicks initial opening = Ok picked_up.
Proof. reflexivity. Qed.

Lemma picked_up_reachable : reachable picked_up.
Proof.
  apply (clicks_reachable initial opening); [constructor | reflexivity].
Qed.

(** §8 of the specification, first scenario:
    X(0,0), O(1,1), X(0,1), O(1,0), X(0,2) ends with X winning. *)
Example scenario_top_row :
  clicks initial [(0, 0); (1, 1); (0, 1); (1, 0); (0, 2)] = Ok top_row_won.
Proof. reflexivity. Qed.

(** §8, second scenario: with six pieces down, X picks (0,0) and moves it to
    the empty (1,2); (0,0) is vacated and the turn passes to O. *)
Example scenario_move :
  onCellClick picked_up 1 2 =
  Ok (mkGamePage (grid Blank SymX Blank  SymO SymO SymX  Blank SymO SymX)
        3 3 oPlayer Blank "" None).
Proof. reflexivity. Qed.

(** ** Win detector *)

(** C1. On a board with cells [a0 .. a8] (row by row), [checkWinner] reads
    exactly eight triples of the current cell values: the three rows, then
    the three columns, then the two diagonals.  A triple wins iff its three
    values are equal and not empty.  The first winning triple in that order
    decides: [winner] becomes its symbol and [message] becomes
    "Player X wins!" or "Player O wins!", whatever triples follow it.  When
    no triple wins, the state is returned as it was. *)
Theorem checkWinner_first_match (s : GamePage)
    (a0 a1 a2 a3 a4 a5 a6 a7 a8 : CellValue) :
  board s = grid a0 a1 a2 a3 a4 a5 a6 a7 a8 ->
  let lines : list Line :=
    [ (a0, a1, a2); (a3, a4, a5); (a6, a7, a8);
      (a0, a3, a6); (a1, a4, a7); (a2, a5, a8);
      (a0, a4, a8); (a2, a4, a6) ] in
  getLines (board s) = Ok lines /\
  length lines = 8 /\
  (forall l : Line,
     lineWins l = true <-> l.1.1 = l.1.2 /\ l.1.2 = l.2 /\ l.1.1 <> Blank) /\
  (forall (pre : list Line) (l : Line) (post : list Line),
     lines = (pre ++ l :: post)%list ->
     (forall l', l' ∈ pre -> lineWins l' = false) ->
     lineWins l = true ->
     checkWinner s =
       Ok (mkGamePage (board s) (xPlayer_count s) (oPlayer_count s)
             (currentPlayer s) l.1.1
             ("Player " +:+ text l.1.1 +:+ " wins!") (selectedCell s)) /\
     (l.1.1 = SymX /\ "Player " +:+ text l.1.1 +:+ " wins!" = "Player X wins!" \/
      l.1.1 = SymO /\ "Player " +:+ text l.1.1 +:+ " wins!" = "Player O wins!")) /\
  ((forall l, l ∈ lines -> lineWins l = false) -> checkWinner s = Ok s).
Proof.
  intros Hboard lines.
  assert (Hlines : getLines (board s) = Ok lines)
    by (rewrite Hboard; apply getLines_grid).
  split; [exact Hlines|]. split; [reflexivity|].
  split; [apply lineWins_true|]. split.
  - intros pre l post Hsplit Hpre Hl. split.
    + unfold checkWinner. rewrite Hlines, Hsplit. simpl.
      by rewrite (scanLines_first pre l post s Hpre Hl).
    + apply lineWins_true in Hl as (_ & _ & Hne).
      destruct (l.1.1); [done|by left|by right].
  - intros Hnone. unfold checkWinner. rewrite Hlines. unfold bind.
    by rewrite (scanLines_none lines s Hnone).
Qed.

(** On the board of [top_row_placed] the first triple read, the top row,
    already wins for X. *)
Lemma checkWinner_first_match_witness :
  board top_row_placed =
    grid SymX SymX SymX SymO SymO Blank Blank Blank Blank /\
  checkWinner top_row_placed = Ok top_row_won.
Proof.
  split; [reflexivity|].
  destruct (checkWinner_first_match top_row_placed
              SymX SymX SymX SymO SymO Blank Blank Blank Blank eq_refl)
    as (_ & _ & _ & Hfirst & _).
  destruct (Hfirst [] (SymX, SymX, SymX)
              [ (SymO, SymO, Blank); (Blank, Blank, Blank);
                (SymX, SymO, Blank); (SymX, SymO, Blank);
                (SymX, Blank, Blank); (SymX, SymO, Blank);
                (SymX, SymO, Blank) ] eq_refl) as [Hcw _].
  - intros l' Hl'. by apply elem_of_nil in Hl'.
  - reflexivity.
  - exact Hcw.
Defined.

(** ** Terminal state *)

(** C4. Once [winner] is set, a click on any cell returns the state
    unchanged: board, both counts, player to move, winner, message and
    selection. *)
Theorem click_after_win_is_noop (s : GamePage) (row col : nat) :
  winner s <> Blank -> onCellClick s row col = Ok s.
Proof. apply onCellClick_won. Qed.

Lemma click_after_win_is_noop_witness :
  winner top_row_won <> Blank /\ onCellClick top_row_won 2 2 = Ok top_row_won.
Proof.
  split; [discriminate|].
  apply (click_after_win_is_noop top_row_won 2 2). discriminate.
Defined.

(** ** Reset *)

(** C9. [resetGame], from any state, gives the state the component starts
    in: nine empty cells, both counts zero, X to move, and no winner, message
    or selection. *)
Theorem resetGame_restores_initial (s : GamePage) :
  resetGame s = initial /\
  board (resetGame s) =
    grid Blank Blank Blank Blank Blank Blank Blank Blank Blank /\
  (forall r c, r < 3 -> c < 3 -> cellValue (board (resetGame s)) r c = Ok Blank) /\
  countCells truthy (board (resetGame s)) = 0 /\
  xPlayer_count (resetGame s) = 0 /\
  oPlayer_count (resetGame s) = 0 /\
  currentPlayer (resetGame s) = xPlayer /\
  symbol (currentPlayer (resetGame s)) = SymX /\
  winner (resetGame s) = Blank /\
  message (resetGame s) = "" /\
  selectedCell (resetGame s) = None.
Proof.
  rewrite resetGame_initial. repeat split.
  intros r c Hr Hc.
  destruct r as [|[|[|r]]]; [| | |lia];
    (destruct c as [|[|[|c]]]; [| | |lia]); reflexivity.
Qed.

(** ** Placement *)

(** C2. In a state without winner and without selection, where the player
    to move has placed fewer than three pieces and the clicked cell is
    empty, [onCellClick] writes that player's symbol into the cell (and into
    no other cell), adds one to that player's count and leaves the other
    player's count alone, runs [checkWinner] on the result, and passes the
    turn to the other player exactly when [checkWinner] found no winner. *)
Theorem place_on_empty_cell (s : GamePage) (row col : nat) :
  board_ok (board s) ->
  winner s = Blank ->
  selectedCell s = None ->
  count s (currentPlayer s) < 3 ->
  cellValue (board s) row col = Ok Blank ->
  exists b' w s',
    onCellClick s row col = Ok s' /\
    setCellValue (board s) row col (symbol (currentPlayer s)) = Ok b' /\
    board s' = b' /\
    cellValue (board s') row col = Ok (symbol (currentPlayer s)) /\
    (forall r c, (r, c) <> (row, col) ->
       cellValue (board s') r c = cellValue (board s) r c) /\
    count s' (currentPlayer s) = count s (currentPlayer s) + 1 /\
    count s' (other (currentPlayer s)) = count s (other (currentPlayer s)) /\
    checkWinner (incr_currentPlayer_count (set_board b' s)) = Ok w /\
    winner s' = winner w /\
    message s' = message w /\
    selectedCell s' = None /\
    (winner w = Blank -> currentPlayer s' = other (currentPlayer s)) /\
    (winner w <> Blank -> currentPlayer s' = currentPlayer s).
Proof.
  intros Hb Hw Hsel Hlt Hcell.
  destruct (handlePlace_placed s row col Hb Hcell Hlt)
    as (b' & s' & Hset & Hct & E).
  destruct (concludeTurn_detail _ _ Hct)
    as (w & Hcw & Ew & Em & Eb & Ex & Eo & Es & Hsw & Hst).
  exists b', w, s'.
  assert (Hb' : board s' = b').
  { rewrite Eb. unfold incr_currentPlayer_count. simpl.
    by destruct (currentPlayer s). }
  split; [by rewrite (onCellClick_place _ _ _ Hw Hsel Hlt)|].
  split; [done|]. split; [done|]. rewrite Hb'.
  split; [rewrite (cellValue_set _ _ _ _ _ row col Hset);
          by rewrite decide_True|].
  split.
  { intros r c Hne. rewrite (cellValue_set _ _ _ _ _ r c Hset).
    rewrite decide_False; [done|congruence]. }
  assert (count s' (currentPlayer s) = count s (currentPlayer s) + 1 /\
          count s' (other (currentPlayer s)) = count s (other (currentPlayer s)) /\
          selectedCell s' = None /\
          currentPlayer (incr_currentPlayer_count (set_board b' s)) =
            currentPlayer s) as (Hc1 & Hc2 & Hs' & Ecur).
  { revert Ex Eo Es. unfold incr_currentPlayer_count. simpl. rewrite Hsel.
    destruct (currentPlayer s); simpl; intros -> -> ->;
      repeat split; try done; lia. }
  rewrite Ecur in Hsw, Hst. by repeat split.
Qed.

(** X completes the top row from [two_each]: the cell is written, X's count
    goes from 2 to 3, O's stays 2, and X, having won, remains to move. *)
Lemma place_on_empty_cell_witness :
  exists s',
    onCellClick two_each 0 2 = Ok s' /\
    cellValue (board s') 0 2 = Ok SymX /\
    xPlayer_count s' = 3 /\ oPlayer_count s' = 2 /\
    winner s' = SymX /\ currentPlayer s' = xPlayer.
Proof.
  destruct (place_on_empty_cell two_each 0 2)
    as (b' & w & s' & Hclick & Hset & Hb' & Hcell & _ & Hx & Ho & Hcw
        & Hw & _ & _ & _ & Hstay).
  - apply grid_ok.
  - reflexivity.
  - reflexivity.
  - simpl. lia.
  - reflexivity.
  - vm_compute in Hset. injection Hset as <-.
    vm_compute in Hcw. injection Hcw as <-.
    exists s'. split; [exact Hclick|]. split; [exact Hcell|].
    split; [exact Hx|]. split; [exact Ho|]. split; [exact Hw|].
    apply Hstay. discriminate.
Defined.

(** ** Movement *)

(** C3. In a state without winner where the selected cell [(sr, sc)] holds a
    piece of the player to move, a click on an empty cell [(r, c)] writes
    that player's symbol into [(r, c)], empties [(sr, sc)], changes no other
    cell, clears the selection, runs [checkWinner] on the result, and passes
    the turn exactly when [checkWinner] found no winner.  Both counts and the
    number of occupied cells stay as they were. *)
Theorem move_to_empty_cell (s : GamePage) (sr sc r c : nat) :
  board_ok (board s) ->
  winner s = Blank ->
  selectedCell s = Some (sr, sc) ->
  cellValue (board s) sr sc = Ok (symbol (currentPlayer s)) ->
  cellValue (board s) r c = Ok Blank ->
  exists w s',
    onCellClick s r c = Ok s' /\
    cellValue (board s') r c = Ok (symbol (currentPlayer s)) /\
    cellValue (board s') sr sc = Ok Blank /\
    (forall r' c', (r', c') <> (r, c) -> (r', c') <> (sr, sc) ->
       cellValue (board s') r' c' = cellValue (board s) r' c') /\
    selectedCell s' = None /\
    checkWinner (set_selectedCell None (set_board (board s') s)) = Ok w /\
    winner s' = winner w /\
    message s' = message w /\
    (winner w = Blank -> currentPlayer s' = other (currentPlayer s)) /\
    (winner w <> Blank -> currentPlayer s' = currentPlayer s) /\
    xPlayer_count s' = xPlayer_count s /\
    oPlayer_count s' = oPlayer_count s /\
    countCells truthy (board s') = countCells truthy (board s).
Proof.
  intros Hb Hw Hsel Hown Hcell.
  destruct (handleMove_moved s r c sr sc Hb Hsel Hown Hcell)
    as (b1 & b2 & s' & Hset1 & Hset2 & Hct & E).
  destruct (concludeTurn_detail _ _ Hct)
    as (w & Hcw & Ew & Em & Eb & Ex & Eo & Es & Hsw & Hst).
  simpl in Eb, Ex, Eo, Es, Hsw, Hst.
  assert (Hne : (r, c) <> (sr, sc)).
  { intros [= -> ->]. rewrite Hown in Hcell. by destruct (currentPlayer s). }
  assert (Hown1 : cellValue b1 sr sc = Ok (symbol (currentPlayer s))).
  { rewrite (cellValue_set _ _ _ _ _ sr sc Hset1). by rewrite decide_False. }
  exists w, s'. rewrite Eb.
  split; [by rewrite (onCellClick_move _ _ _ _ Hw Hsel)|].
  split.
  { rewrite (cellValue_set _ _ _ _ _ r c Hset2).
    rewrite decide_False by congruence.
    rewrite (cellValue_set _ _ _ _ _ r c Hset1). by rewrite decide_True. }
  split.
  { rewrite (cellValue_set _ _ _ _ _ sr sc Hset2). by rewrite decide_True. }
  split.
  { intros r' c' H1 H2.
    rewrite (cellValue_set _ _ _ _ _ r' c' Hset2).
    rewrite decide_False by congruence.
    rewrite (cellValue_set _ _ _ _ _ r' c' Hset1).
    rewrite decide_False by congruence. done. }
  repeat (split; [done|]).
  pose proof (countCells_set truthy _ _ _ _ _ _ Hcell Hset1) as C1.
  pose proof (countCells_set truthy _ _ _ _ _ _ Hown1 Hset2) as C2.
  lia.
Qed.

(** From [picked_up], X moves the piece picked at (0,0) to the empty (1,2):
    no line results, so O is to move. *)
Lemma move_to_empty_cell_witness :
  exists s',
    onCellClick picked_up 1 2 = Ok s' /\
    cellValue (board s') 1 2 = Ok SymX /\
    cellValue (board s') 0 0 = Ok Blank /\
    selectedCell s' = None /\
    xPlayer_count s' = 3 /\ oPlayer_count s' = 3 /\
    countCells truthy (board s') = 6.
Proof.
  destruct (move_to_empty_cell picked_up 0 0 1 2)
    as (w & s' & Hclick & Hto & Hfrom & _ & Hsel & _ & _ & _ & _ & _
        & Hx & Ho & Hocc).
  - apply grid_ok.
  - reflexivity.
  - reflexivity.
  - reflexivity.
  - reflexivity.
  - exists s'. split; [exact Hclick|]. split; [exact Hto|].
    split; [exact Hfrom|]. split; [exact Hsel|].
    split; [exact Hx|]. split; [exact Ho|]. exact Hocc.
Defined.

(** ** Turn order *)

(** C5. X moves first.  From a reachable state, a click that changes the
    board (a placement or a movement) and produces no winner hands the turn
    to the other player; one that produces a winner leaves the turn where it
    is; a click that does not change the board (a selection, a reselection
    or an ignored click) leaves the turn where it is.  Once a winner is set,
    no sequence of clicks changes anything, the player to move included. *)
Theorem turn_alternates (s : GamePage) (r c : nat) (s' : GamePage) :
  reachable s ->
  onCellClick s r c = Ok s' ->
  symbol (currentPlayer initial) = SymX /\
  (board s' <> board s -> winner s' = Blank ->
     currentPlayer s' = other (currentPlayer s)) /\
  (board s' <> board s -> winner s' <> Blank ->
     currentPlayer s' = currentPlayer s) /\
  (board s' = board s -> currentPlayer s' = currentPlayer s) /\
  (winner s <> Blank -> s' = s /\ forall l, clicks s l = Ok s).
Proof.
  intros Hreach Hclick. split; [reflexivity|].
  destruct (reachable_inv _ Hreach) as (Hb & Hs & _).
  assert (Hfrozen : winner s <> Blank -> s' = s /\ forall l, clicks s l = Ok s).
  { intros Hw. split; [|intros l; by apply clicks_won].
    rewrite (onCellClick_won _ _ _ Hw) in Hclick. by injection Hclick. }
  destruct (onCellClick_cases s r c s' Hb Hs Hclick)
    as [->|[->|(Hw & s1 & Ecur & Hold & Hnew & Hct)]];
    [repeat split; simpl; (congruence || apply Hfrozen; done)..|].
  destruct (concludeTurn_fields _ _ Hct) as (Eb & _ & _ & _ & Hsw & Hst).
  rewrite Ecur in Hsw, Hst. repeat split; try done.
  intros Hsame. rewrite Eb in Hsame. rewrite Hsame, Hold in Hnew.
  by destruct (currentPlayer s).
Qed.

(** X opens in the centre; the board changes, nobody has won, O is next. *)
Lemma turn_alternates_witness :
  reachable initial /\
  onCellClick initial 1 1 =
    Ok (mkGamePage (grid Blank Blank Blank Blank SymX Blank Blank Blank Blank)
          1 0 oPlayer Blank "" None) /\
  currentPlayer (mkGamePage
                   (grid Blank Blank Blank Blank SymX Blank Blank Blank Blank)
                   1 0 oPlayer Blank "" None) = other (currentPlayer initial).
Proof.
  split; [constructor|]. split; [reflexivity|].
  destruct (turn_alternates initial 1 1
              (mkGamePage
                 (grid Blank Blank Blank Blank SymX Blank Blank Blank Blank)
                 1 0 oPlayer Blank "" None)) as (_ & Hswitch & _).
  - constructor.
  - reflexivity.
  - apply Hswitch; [discriminate|reflexivity].
Defined.

(** ** Bounds on the counts *)

(** C7. In every reachable state each player's count is between 0 and 3 and
    the two counts add up to at most 6.  [handlePlace] checks the bound
    itself: called in any state whose player to move already has three
    pieces, on any cell of the board, it returns the state unchanged. *)
Theorem placed_counts_bounded (s : GamePage) :
  reachable s ->
  0 <= xPlayer_count s <= 3 /\
  0 <= oPlayer_count s <= 3 /\
  xPlayer_count s + oPlayer_count s <= 6 /\
  (forall (t : GamePage) r c v,
     3 <= count t (currentPlayer t) ->
     cellValue (board t) r c = Ok v ->
     handlePlace t r c = Ok t).
Proof.
  intros Hreach. destruct (reachable_inv _ Hreach) as (_ & _ & _ & [Hx Ho]).
  repeat split; try lia.
  intros t r c v Hfull Hcell. unfold handlePlace. rewrite Hcell. simpl.
  destruct (decide (v <> Blank)); [done|].
  rewrite decide_False; [done|lia].
Qed.

Lemma placed_counts_bounded_witness :
  reachable picked_up /\
  xPlayer_count picked_up + oPlayer_count picked_up <= 6 /\
  handlePlace picked_up 0 2 = Ok picked_up.
Proof.
  assert (Hreach : reachable picked_up).
  { apply (clicks_reachable initial opening); [constructor|reflexivity]. }
  split; [exact Hreach|].
  destruct (placed_counts_bounded picked_up Hreach) as (_ & _ & Hsum & Hfull).
  split; [exact Hsum|].
  apply (Hfull picked_up 0 2 Blank); [simpl; lia|reflexivity].
Defined.

(** ** The selected cell *)

(** C8. In every reachable state a selected cell holds a piece of the
    player to move; a click (selection, reselection, movement, placement)
    and a reset lead to states where this is so again. *)
Theorem selected_cell_holds_own_piece (s : GamePage) :
  reachable s ->
  (forall r c, selectedCell s = Some (r, c) ->
     cellValue (board s) r c = Ok (symbol (currentPlayer s))) /\
  (forall r c s', onCellClick s r c = Ok s' ->
     forall r' c', selectedCell s' = Some (r', c') ->
       cellValue (board s') r' c' = Ok (symbol (currentPlayer s'))) /\
  (forall r c, selectedCell (resetGame s) = Some (r, c) ->
     cellValue (board (resetGame s)) r c =
       Ok (symbol (currentPlayer (resetGame s)))).
Proof.
  intros Hreach. split; [|split].
  - by destruct (reachable_inv _ Hreach) as (_ & Hs & _).
  - intros r c s' Hclick.
    by destruct (reachable_inv s' (reachable_click s r c s' Hreach Hclick))
      as (_ & Hs & _).
  - by destruct (reachable_inv _ (reachable_reset s Hreach)) as (_ & Hs & _).
Qed.

Lemma selected_cell_holds_own_piece_witness :
  reachable picked_up /\
  selectedCell picked_up = Some (0, 0) /\
  cellValue (board picked_up) 0 0 = Ok (symbol (currentPlayer picked_up)).
Proof.
  assert (Hreach : reachable picked_up).
  { apply (clicks_reachable initial opening); [constructor|reflexivity]. }
  split; [exact Hreach|]. split; [reflexivity|].
  destruct (selected_cell_holds_own_piece picked_up Hreach) as (Hsel & _).
  apply Hsel. reflexivity.
Defined.

(** ** Pieces on the board and pieces counted *)

(** C10. In every reachable state the number of cells holding 'X' is X's
    count and the number of cells holding 'O' is O's count; the occupied
    cells are therefore as many as the two counts together. *)
Theorem board_matches_counts (s : GamePage) :
  reachable s ->
  countCells (holds SymX) (board s) = xPlayer_count s /\
  countCells (holds SymO) (board s) = oPlayer_count s /\
  countCells truthy (board s) = xPlayer_count s + oPlayer_count s.
Proof.
  intros Hreach. destruct (reachable_inv _ Hreach) as (_ & _ & [Hx Ho] & _).
  rewrite countCells_occupied. lia.
Qed.

Lemma board_matches_counts_witness :
  reachable all_placed /\
  countCells (holds SymX) (board all_placed) = 3 /\
  countCells (holds SymO) (board all_placed) = 3.
Proof.
  assert (Hreach : reachable all_placed).
  { apply (clicks_reachable initial
             [(0, 0); (1, 0); (0, 1); (1, 1); (2, 2); (2, 1)]);
      [constructor|reflexivity]. }
  split; [exact Hreach|].
  destruct (board_matches_counts all_placed Hreach) as (Hx & Ho & _).
  split; [exact Hx|exact Ho].
Defined.

(** ** Ignored clicks *)

Lemma handleMove_ignored (s : GamePage) (row col : nat) (sel : nat * nat)
    (v : CellValue) :
  selection_ok s ->
  selectedCell s = Some sel ->
  cellValue (board s) row col = Ok v ->
  v = symbol (other (currentPlayer s)) \/ sel = (row, col) ->
  handleMove s row col = Ok s.
Proof.
  intros Hs Hsel Hcell Hwhy. unfold handleMove. rewrite Hsel.
  destruct sel as [sr sc]. rewrite Hcell. simpl.
  destruct Hwhy as [->|[= -> ->]].
  - rewrite bool_decide_eq_false_2 by (by destruct (currentPlayer s)).
    simpl. rewrite decide_False by (by destruct (currentPlayer s)). done.
  - rewrite (Hs _ _ Hsel) in Hcell. injection Hcell as <-.
    rewrite (bool_decide_eq_false_2 (row <> row)) by auto.
    rewrite (bool_decide_eq_false_2 (col <> col)) by auto.
    rewrite andb_false_r.
    rewrite decide_False by (by destruct (currentPlayer s)). done.
Qed.

Lemma onCellClick_total (s : GamePage) (row col : nat) :
  board_ok (board s) -> selection_ok s -> row < 3 -> col < 3 ->
  exists s', onCellClick s row col = Ok s'.
Proof.
  intros Hb Hs Hr Hc.
  destruct (cellValue_in_range _ _ _ Hb Hr Hc) as [v Hcell].
  destruct (decide (winner s = Blank)) as [Hw|Hw];
    [|exists s; by apply onCellClick_won].
  destruct (selectedCell s) as [[sr sc]|] eqn:Hsel.
  - rewrite (onCellClick_move _ _ _ _ Hw Hsel).
    destruct (decide (v = Blank)) as [->|Hv].
    + destruct (handleMove_moved s row col sr sc Hb Hsel (Hs _ _ Hsel) Hcell)
        as (_ & _ & s' & _ & _ & _ & E). eauto.
    + unfold handleMove. rewrite Hsel, Hcell. simpl.
      destruct (bool_decide (v = symbol (currentPlayer s)) && _); [eauto|].
      rewrite decide_False by done. eauto.
  - destruct (decide (3 <= count s (currentPlayer s))) as [Hfull|Hfree].
    + rewrite (onCellClick_select _ _ _ Hw Hsel Hfull).
      unfold onSelectPiece. rewrite Hcell. simpl.
      destruct (decide (v = symbol (currentPlayer s))); eauto.
    + assert (Hlt : count s (currentPlayer s) < 3) by lia.
      rewrite (onCellClick_place _ _ _ Hw Hsel Hlt).
      destruct (decide (v = Blank)) as [->|Hv].
      * destruct (handlePlace_placed s row col Hb Hcell Hlt)
          as (_ & s' & _ & _ & E). eauto.
      * unfold handlePlace. rewrite Hcell. simpl.
        rewrite decide_True by done. eauto.
Qed.

(** C6, as stated, fails: in the reachable state [picked_up] (no winner,
    X has picked (0,0)) a click on (0,1), a cell occupied by another X,
    is not ignored; it moves the selection to (0,1). *)
Lemma reselect_is_not_noop :
  reachable picked_up /\
  winner picked_up = Blank /\
  selectedCell picked_up = Some (0, 0) /\
  cellValue (board picked_up) 0 1 = Ok SymX /\
  onCellClick picked_up 0 1 = Ok (set_selectedCell (Some (0, 1)) picked_up) /\
  onCellClick picked_up 0 1 <> Ok picked_up.
Proof.
  split; [apply picked_up_reachable|]. by repeat split.
Qed.

(** C6, amended.  In a state whose board is three by three and whose
    selected cell, if any, holds a piece of the player to move, a click on a
    cell of the board never raises, and it returns the state unchanged when
    - a winner is set;
    - the cell is occupied and the click is a placement ([handlePlace],
      whatever the count; through the dispatcher, with no selection and a
      count below three);
    - no cell is selected, the player to move has three pieces, and the cell
      is empty or holds the opponent's piece;
    - a cell is selected and the clicked cell holds the opponent's piece or
      is the selected cell itself.
    A click, with a cell selected, on another piece of the player to move is
    not ignored: it moves the selection to that cell and changes nothing
    else. *)
Theorem invalid_clicks_are_noops (s : GamePage) (row col : nat) :
  board_ok (board s) -> selection_ok s -> row < 3 -> col < 3 ->
  exists v,
    cellValue (board s) row col = Ok v /\
    (exists s', onCellClick s row col = Ok s') /\
    (winner s <> Blank -> onCellClick s row col = Ok s) /\
    (v <> Blank -> handlePlace s row col = Ok s) /\
    (selectedCell s = None -> count s (currentPlayer s) < 3 -> v <> Blank ->
       onCellClick s row col = Ok s) /\
    (selectedCell s = None -> 3 <= count s (currentPlayer s) ->
       v <> symbol (currentPlayer s) ->
       onCellClick s row col = Ok s) /\
    (forall sel, selectedCell s = Some sel ->
       v = symbol (other (currentPlayer s)) \/ sel = (row, col) ->
       onCellClick s row col = Ok s) /\
    (forall sel, winner s = Blank -> selectedCell s = Some sel ->
       v = symbol (currentPlayer s) -> sel <> (row, col) ->
       onCellClick s row col = Ok (set_selectedCell (Some (row, col)) s)).
Proof.
  intros Hb Hs Hr Hc.
  destruct (cellValue_in_range _ _ _ Hb Hr Hc) as [v Hcell].
  exists v. split; [exact Hcell|].
  split; [by apply onCellClick_total|].
  split; [apply onCellClick_won|].
  assert (Hplace : v <> Blank -> handlePlace s row col = Ok s).
  { intros Hv. unfold handlePlace. rewrite Hcell. simpl.
    by rewrite decide_True. }
  split; [exact Hplace|].
  assert (Hdone : winner s <> Blank -> onCellClick s row col = Ok s)
    by apply onCellClick_won.
  destruct (decide (winner s = Blank)) as [Hw|Hw];
    [|by repeat split; intros; try apply Hdone].
  split; [intros Hsel Hlt Hv; rewrite onCellClick_place by done; auto|].
  split.
  { intros Hsel Hfull Hv. rewrite onCellClick_select by done.
    unfold onSelectPiece. rewrite Hcell. simpl. by rewrite decide_False. }
  split.
  { intros sel Hsel Hwhy. rewrite (onCellClick_move _ _ _ _ Hw Hsel).
    by apply (handleMove_ignored s row col sel v). }
  intros [sr sc] _ Hsel -> Hne. rewrite (onCellClick_move _ _ _ _ Hw Hsel).
  unfold handleMove. rewrite Hsel, Hcell. simpl.
  rewrite bool_decide_eq_true_2 by done. simpl.
  destruct (decide (row = sr)) as [->|Hrow].
  - assert (col <> sc) by congruence.
    rewrite (bool_decide_eq_true_2 (col <> sc)) by done.
    by rewrite orb_true_r.
  - by rewrite (bool_decide_eq_true_2 (row <> sr)).
Qed.

(** With X's piece at (0,0) picked up, a click on O's piece at (1,0) is
    ignored. *)
Lemma invalid_clicks_are_noops_witness :
  board_ok (board picked_up) /\ selection_ok picked_up /\
  onCellClick picked_up 1 0 = Ok picked_up.
Proof.
  assert (Hs : selection_ok picked_up).
  { intros r c Hsel. injection Hsel as <- <-. reflexivity. }
  split; [apply grid_ok|]. split; [exact Hs|].
  destruct (invalid_clicks_are_noops picked_up 1 0 (grid_ok _ _ _ _ _ _ _ _ _) Hs)
    as (v & Hcell & _ & _ & _ & _ & _ & Hmove & _); [lia|lia|].
  apply (Hmove (0, 0)); [reflexivity|].
  left. injection Hcell as <-. reflexivity.
Defined.

(** * Further properties of the component *)

(** ** What one click can do *)

Section Outcome.
Implicit Types (s : GamePage) (r c : nat).

(** A click that returns is ignored, or selects the clicked piece, or
    places a piece, or moves the selected piece. *)
Lemma onCellClick_outcome s r c s' :
  board_ok (board s) -> selection_ok s ->
  onCellClick s r c = Ok s' ->
  s' = s \/
  (winner s = Blank /\
   cellValue (board s) r c = Ok (symbol (currentPlayer s)) /\
   (selectedCell s = None -> 3 <= count s (currentPlayer s)) /\
   s' = set_selectedCell (Some (r, c)) s) \/
  (winner s = Blank /\ selectedCell s = None /\
   count s (currentPlayer s) < 3 /\
   cellValue (board s) r c = Ok Blank /\
   exists b',
     setCellValue (board s) r c (symbol (currentPlayer s)) = Ok b' /\
     concludeTurn (incr_currentPlayer_count (set_board b' s)) = Ok s') \/
  (winner s = Blank /\
   cellValue (board s) r c = Ok Blank /\
   exists sr sc b1 b2,
     selectedCell s = Some (sr, sc) /\
     cellValue (board s) sr sc = Ok (symbol (currentPlayer s)) /\
     setCellValue (board s) r c (symbol (currentPlayer s)) = Ok b1 /\
     setCellValue b1 sr sc Blank = Ok b2 /\
     concludeTurn (set_selectedCell None (set_board b2 s)) = Ok s').
Proof.
  intros Hb Hs H.
  destruct (decide (winner s = Blank)) as [Hw|Hw];
    [|left; rewrite onCellClick_won in H by done; by simplify_eq].
  destruct (selectedCell s) as [[sr sc]|] eqn:Hsel.
  - rewrite (onCellClick_move _ _ _ _ Hw Hsel) in H.
    pose proof H as H0. unfold handleMove in H0. rewrite Hsel in H0.
    destruct (cellValue (board s) r c) as [v|] eqn:Hcell; [|done].
    simpl in H0.
    destruct (bool_decide (v = symbol (currentPlayer s))
              && (bool_decide (r <> sr) || bool_decide (c <> sc))) eqn:Hre.
    { right; left. apply andb_true_iff in Hre as [Hv _].
      apply bool_decide_eq_true in Hv as ->.
      split; [done|]. split; [done|]. split; [done|]. by simplify_eq. }
    destruct (decide (v = Blank)) as [->|]; [|left; by simplify_eq].
    clear H0. right; right; right. split; [done|]. split; [done|].
    pose proof (Hs _ _ Hsel) as Hown.
    destruct (handleMove_moved s r c sr sc Hb Hsel Hown Hcell)
      as (b1 & b2 & s'' & Hset1 & Hset2 & Hct & E).
    rewrite E in H. injection H as ->.
    by exists sr, sc, b1, b2.
  - destruct (decide (3 <= count s (currentPlayer s))) as [Hc|Hc].
    + rewrite (onCellClick_select _ _ _ Hw Hsel Hc) in H.
      unfold onSelectPiece in H.
      destruct (cellValue (board s) r c) as [v|]; [|done]. simpl in H.
      destruct (decide (v = symbol (currentPlayer s))) as [->|];
        [right; left|left]; by simplify_eq.
    + assert (Hlt : count s (currentPlayer s) < 3) by lia.
      rewrite (onCellClick_place _ _ _ Hw Hsel Hlt) in H.
      pose proof H as H0. unfold handlePlace in H0.
      destruct (cellValue (board s) r c) as [v|] eqn:Hcell; [|done].
      simpl in H0.
      destruct (decide (v <> Blank)) as [|Hv]; [left; by simplify_eq|].
      assert (v = Blank) as -> by (destruct v; [done|by destruct Hv..]).
      clear H0. right; right; left. repeat (split; [done|]).
      destruct (handlePlace_placed s r c Hb Hcell Hlt)
        as (b' & s'' & Hset & Hct & E).
      rewrite E in H. injection H as ->.
      by exists b'.
Qed.

Lemma board_incr_currentPlayer_count s :
  board (incr_currentPlayer_count s) = board s.
Proof. unfold incr_currentPlayer_count. by destruct (currentPlayer s). Qed.

Lemma cellValue_differs_board (b b' : Board) r c v v' :
  cellValue b r c = Ok v -> cellValue b' r c = Ok v' -> v <> v' -> b' <> b.
Proof. intros H H' Hne ->. congruence. Qed.
End Outcome.

(** ** The public interface as a whole *)

Lemma reachable_public_inv (s : GamePage) : reachable_public s -> inv s.
Proof.
  induction 1 as [|s r c s' _ IH Hclick|s r c s' _ IH Hsel|s _ _].
  - apply inv_initial.
  - by apply (onCellClick_inv s r c).
  - by apply (onSelectPiece_inv s r c).
  - rewrite resetGame_initial. apply inv_initial.
Qed.

Lemma reachable_is_public (s : GamePage) : reachable s -> reachable_public s.
Proof.
  induction 1 as [|s r c s' _ IH Hclick|s _ IH].
  - constructor.
  - by apply (public_click s r c).
  - by apply public_reset.
Qed.

(** X1. Whatever the order in which [onCellClick], [onSelectPiece] and
    [resetGame] are called, the board stays three by three, a selected cell
    holds a piece of the player to move, the pieces on the board are the
    pieces counted, and no count exceeds three. *)
Theorem public_calls_keep_invariants (s : GamePage) :
  reachable_public s ->
  board_ok (board s) /\
  (forall r c, selectedCell s = Some (r, c) ->
     cellValue (board s) r c = Ok (symbol (currentPlayer s))) /\
  countCells (holds SymX) (board s) = xPlayer_count s /\
  countCells (holds SymO) (board s) = oPlayer_count s /\
  xPlayer_count s <= 3 /\ oPlayer_count s <= 3.
Proof.
  intros H. by destruct (reachable_public_inv _ H) as (? & ? & [? ?] & [? ?]).
Qed.

(** [onSelectPiece] called directly while X is still placing. *)
Lemma public_calls_keep_invariants_witness :
  reachable_public (set_selectedCell (Some (0, 0)) two_each) /\
  cellValue (board two_each) 0 0 = Ok SymX /\
  countCells (holds SymX) (board two_each) = 2.
Proof.
  assert (H : reachable_public (set_selectedCell (Some (0, 0)) two_each)).
  { apply (public_select two_each 0 0); [|reflexivity].
    apply reachable_is_public.
    apply (clicks_reachable initial [(0, 0); (1, 0); (0, 1); (1, 1)]);
      [constructor|reflexivity]. }
  split; [exact H|].
  destruct (public_calls_keep_invariants _ H) as (_ & Hsel & Hx & _).
  split; [apply Hsel; reflexivity|exact Hx].
Defined.

(** ** Counts under a click *)



(** ** Clicks outside the board *)




(** ** The winning triples of a board *)

Section WonLines.
Implicit Types (s : GamePage) (b : Board) (l : Line).

(** The loop of [checkWinner] in one step: it acts on the first triple that
    passes the test, if there is one. *)
Lemma scanLines_filter (lines : list Line) s :
  scanLines lines s =
  match List.filter lineWins lines with
  | [] => s
  | l :: _ => declare l.1.1 s
  end.
Proof.
  induction lines as [|l0 lines IH]; simpl; [done|].
  by destruct (lineWins l0).
Qed.

Lemma checkWinner_wonLines s :
  board_ok (board s) ->
  checkWinner s =
  Ok match wonLines (board s) with
     | [] => s
     | l :: _ => declare l.1.1 s
     end.
Proof.
  intros Hb. unfold checkWinner, wonLines.
  destruct (getLines_ok _ Hb) as [lines ->]. simpl.
  by rewrite scanLines_filter.
Qed.

Lemma wonLines_wins b l : In l (wonLines b) -> lineWins l = true.
Proof.
  unfold wonLines. destruct (getLines b) as [lines|]; [|done].
  intros H. by apply filter_In in H as [_ H].
Qed.

Lemma wonLines_triple b l v :
  In l (wonLines b) -> l.1.1 = v -> l = (v, v, v) /\ v <> Blank.
Proof.
  intros H <-. apply wonLines_wins, lineWins_true in H as (H1 & H2 & H3).
  destruct l as [[v0 v1] v2]. simpl in *. by subst.
Qed.

Lemma getLines_cells (a0 a1 a2 a3 a4 a5 a6 a7 a8 : CellValue) :
  getLines [ [mkCell a0; mkCell a1; mkCell a2];
             [mkCell a3; mkCell a4; mkCell a5];
             [mkCell a6; mkCell a7; mkCell a8] ] =
  Ok [ (a0, a1, a2); (a3, a4, a5); (a6, a7, a8);
       (a0, a3, a6); (a1, a4, a7); (a2, a5, a8);
       (a0, a4, a8); (a2, a4, a6) ].
Proof. reflexivity. Qed.

(** After one cell is overwritten with [v], a winning triple either starts
    with [v] or was winning before. *)
Lemma wonLines_set b r c v b' l :
  board_ok b ->
  setCellValue b r c v = Ok b' ->
  In l (wonLines b') ->
  l.1.1 = v \/ In l (wonLines b).
Proof.
  intros Hb Hset. destruct (board_ok_grid b Hb)
    as (a0 & a1 & a2 & a3 & a4 & a5 & a6 & a7 & a8 & ->).
  assert (r < 3 /\ c < 3) as [Hr Hc].
  { destruct (cellValue (grid a0 a1 a2 a3 a4 a5 a6 a7 a8) r c) as [w|] eqn:E.
    - eapply cellValue_Ok_lt; [apply grid_ok|exact E].
    - revert Hset E. unfold setCellValue, cellValue.
      destruct (_ !! r) as [row|]; [|done]. by destruct (row !! c). }
  destruct r as [|[|[|r]]]; [| | |lia];
    (destruct c as [|[|[|c]]]; [| | |lia]);
    injection Hset as <-; unfold wonLines, grid; simpl insert;
    rewrite !getLines_cells; rewrite !filter_In; intros [Hin Hwin];
    apply lineWins_true in Hwin as (H1 & H2 & H3);
    simpl in Hin; destruct Hin as [<-|[<-|[<-|[<-|[<-|[<-|[<-|[<-|[]]]]]]]]];
    simpl in *;
    first [ left; congruence
          | right; split;
            [ repeat (first [left; reflexivity | right])
            | rewrite !bool_decide_eq_true_2 by done; reflexivity ] ].
Qed.
End WonLines.

(** X4. [checkWinner] touches only [winner] and [message]; it never clears a
    winner that is set; and running it on its own result changes nothing. *)
Theorem checkWinner_idempotent (s w : GamePage) :
  checkWinner s = Ok w ->
  checkWinner w = Ok w /\
  board w = board s /\
  xPlayer_count w = xPlayer_count s /\
  oPlayer_count w = oPlayer_count s /\
  currentPlayer w = currentPlayer s /\
  selectedCell w = selectedCell s /\
  (winner s <> Blank -> winner w <> Blank).
Proof.
  intros H. pose proof (checkWinner_fields _ _ H) as Hfields.
  split; [|split; [tauto|split; [tauto|split; [tauto|split; [tauto|split; [tauto|]]]]]].
  - revert H. unfold checkWinner.
    destruct (getLines (board s)) as [lines|] eqn:Hlines; [|done]. simpl.
    intros [= <-].
    assert (board (scanLines lines s) = board s) as ->.
    { rewrite scanLines_filter. by destruct (List.filter lineWins lines). }
    rewrite Hlines. simpl. rewrite !scanLines_filter.
    by destruct (List.filter lineWins lines).
  - destruct (checkWinner_cases _ _ H) as [->|(v & Hv & ->)]; [done|].
    by intros _.
Qed.

Lemma checkWinner_idempotent_witness :
  checkWinner top_row_placed = Ok top_row_won /\
  checkWinner top_row_won = Ok top_row_won.
Proof.
  split; [reflexivity|].
  by destruct (checkWinner_idempotent top_row_placed top_row_won eq_refl)
    as [H _].
Defined.

(** ** Winner, message and board *)

Section WinnerInvariant.
Implicit Types (s : GamePage) (r c : nat).

Lemma winner_ok_initial : winner_ok initial.
Proof. split; [by intros _|]. by intros []. Qed.

(** The tail of a turn started without winner and message, on a board whose
    winning triples all belong to the player who has just played. *)
Lemma winner_ok_concludeTurn s1 s' :
  board_ok (board s1) ->
  winner s1 = Blank -> message s1 = "" -> selectedCell s1 = None ->
  (forall l, In l (wonLines (board s1)) -> l.1.1 = symbol (currentPlayer s1)) ->
  concludeTurn s1 = Ok s' ->
  winner_ok s'.
Proof.
  intros Hb Hw Hm Hsel Hown. unfold concludeTurn.
  rewrite (checkWinner_wonLines _ Hb). simpl.
  destruct (wonLines (board s1)) as [|l rest] eqn:Hwon.
  - rewrite Hw. simpl. intros [= <-]. rewrite switchPlayer_other.
    split; simpl; [by rewrite Hwon|]. by rewrite Hw.
  - assert (Hl : l.1.1 = symbol (currentPlayer s1)) by (apply Hown; by left).
    rewrite Hl. simpl.
    replace (truthy (symbol (currentPlayer s1))) with true
      by (by destruct (currentPlayer s1)).
    intros [= <-]. split; simpl; [by destruct (currentPlayer s1)|].
    intros _. rewrite Hwon. repeat split; try done.
    intros l' Hl'. rewrite <- Hwon in Hl'.
    apply (wonLines_triple (board s1)); [done|]. apply Hown.
    by rewrite <- Hwon.
Qed.

Lemma onCellClick_winner_ok s r c s' :
  inv s -> winner_ok s -> onCellClick s r c = Ok s' -> winner_ok s'.
Proof.
  intros (Hb & Hs & _) Hwin Hclick.
  destruct (onCellClick_outcome s r c s' Hb Hs Hclick)
    as [->|[(Hw & _ & _ & ->)
          |[(Hw & Hsel & _ & _ & b' & Hset & Hct)
           |(Hw & _ & sr & sc & b1 & b2 & Hsel & _ & Hset1 & Hset2 & Hct)]]].
  - done.
  - destruct Hwin as [Hno _]. split; simpl; [done|by intros []].
  - destruct Hwin as [Hno _]. destruct (Hno Hw) as [Hm Hwon].
    apply (winner_ok_concludeTurn _ _) in Hct; [done|..];
      rewrite ?board_incr_currentPlayer_count;
      unfold incr_currentPlayer_count; simpl.
    + eauto using setCellValue_board_ok.
    + by destruct (currentPlayer s).
    + by destruct (currentPlayer s).
    + by destruct (currentPlayer s).
    + intros l Hl.
      destruct (wonLines_set _ _ _ _ _ l Hb Hset Hl) as [->|Hold];
        [by destruct (currentPlayer s)|].
      by rewrite Hwon in Hold.
  - destruct Hwin as [Hno _]. destruct (Hno Hw) as [Hm Hwon].
    assert (Hb1 : board_ok b1) by eauto using setCellValue_board_ok.
    apply (winner_ok_concludeTurn _ _) in Hct; [done|..]; simpl; try done.
    + eauto using setCellValue_board_ok.
    + intros l Hl.
      destruct (wonLines_set _ _ _ _ _ l Hb1 Hset2 Hl) as [Hblank|Hl1].
      { apply wonLines_wins, lineWins_true in Hl as (_ & _ & Hne). done. }
      destruct (wonLines_set _ _ _ _ _ l Hb Hset1 Hl1) as [->|Hold]; [done|].
      by rewrite Hwon in Hold.
Qed.

Lemma reachable_winner_ok s : reachable s -> winner_ok s.
Proof.
  induction 1 as [|s r c s' Hreach IH Hclick|s _ _].
  - apply winner_ok_initial.
  - apply (onCellClick_winner_ok s r c); [by apply reachable_inv|done..].
  - rewrite resetGame_initial. apply winner_ok_initial.
Qed.

Lemma countCells_grid (p : CellValue -> bool)
    (a0 a1 a2 a3 a4 a5 a6 a7 a8 : CellValue) :
  countCells p (grid a0 a1 a2 a3 a4 a5 a6 a7 a8) =
  ind (p a0) + ind (p a1) + ind (p a2) + ind (p a3) + ind (p a4) +
  ind (p a5) + ind (p a6) + ind (p a7) + ind (p a8).
Proof.
  unfold countCells. simpl.
  destruct (p a0), (p a1), (p a2), (p a3), (p a4), (p a5), (p a6), (p a7),
    (p a8); reflexivity.
Qed.

(** A completed line of [v] takes three cells holding [v]. *)
Lemma wonLines_count (b : Board) (v : CellValue) :
  board_ok b -> In (v, v, v) (wonLines b) -> 3 <= countCells (holds v) b.
Proof.
  intros Hb. destruct (board_ok_grid b Hb)
    as (a0 & a1 & a2 & a3 & a4 & a5 & a6 & a7 & a8 & ->).
  unfold wonLines. rewrite getLines_grid, filter_In, countCells_grid.
  intros [Hin _]. simpl in Hin.
  destruct Hin as [E|[E|[E|[E|[E|[E|[E|[E|[]]]]]]]]];
    injection E as -> -> ->; unfold holds;
    rewrite (bool_decide_eq_true_2 (v = v)) by done; simpl; lia.
Qed.
End WinnerInvariant.

(** X5. In every reachable state, no winner is recorded exactly when the
    board has no completed line, and as long as that is so the message is
    empty: a completed line never goes unnoticed, and no turn message is
    ever shown. *)
Theorem winner_unset_iff_no_line (s : GamePage) :
  reachable s ->
  (winner s = Blank <-> wonLines (board s) = []) /\
  (winner s = Blank -> message s = "").
Proof.
  intros Hreach. destruct (reachable_winner_ok _ Hreach) as [Hno Hyes].
  split; [split|]; [by intros Hw; apply Hno| |by intros Hw; apply Hno].
  intros Hwon. destruct (decide (winner s = Blank)) as [|Hw]; [done|].
  by destruct (Hyes Hw) as (_ & _ & _ & Hne & _).
Qed.

Lemma winner_unset_iff_no_line_witness :
  reachable picked_up /\ wonLines (board picked_up) = [].
Proof.
  assert (Hreach : reachable picked_up).
  { apply (clicks_reachable initial opening); [constructor|reflexivity]. }
  split; [exact Hreach|].
  destruct (winner_unset_iff_no_line picked_up Hreach) as [[Hno _] _].
  apply Hno. reflexivity.
Defined.

(** X6. In every reachable state with a winner, the winner is the player
    whose turn it still is (the one who played last), the message is
    "Player X wins!" or "Player O wins!" accordingly, nothing is selected,
    every completed line on the board is the winner's, and the winner has
    exactly three pieces. *)
Theorem winner_is_last_mover (s : GamePage) :
  reachable s ->
  winner s <> Blank ->
  winner s = symbol (currentPlayer s) /\
  message s = "Player " +:+ text (winner s) +:+ " wins!" /\
  selectedCell s = None /\
  In (winner s, winner s, winner s) (wonLines (board s)) /\
  (forall l, In l (wonLines (board s)) -> l = (winner s, winner s, winner s)) /\
  count s (currentPlayer s) = 3 /\
  countCells (holds (winner s)) (board s) = 3.
Proof.
  intros Hreach Hw.
  destruct (reachable_winner_ok _ Hreach) as [_ Hyes].
  destruct (Hyes Hw) as (Hcur & Hmsg & Hsel & Hne & Hall).
  destruct (reachable_inv _ Hreach) as (Hb & _ & [Hx Ho] & [Bx Bo]).
  assert (Hin : In (winner s, winner s, winner s) (wonLines (board s))).
  { destruct (wonLines (board s)) as [|l rest] eqn:Hwon; [done|].
    rewrite <- (Hall l) by (by left). by left. }
  pose proof (wonLines_count _ _ Hb Hin) as Hthree.
  repeat (split; [done|]).
  rewrite Hcur in Hthree |- *.
  destruct (currentPlayer s); simpl in *; lia.
Qed.

Lemma winner_is_last_mover_witness :
  reachable top_row_won /\
  winner top_row_won = symbol (currentPlayer top_row_won) /\
  message top_row_won = "Player X wins!".
Proof.
  assert (Hreach : reachable top_row_won).
  { apply (clicks_reachable initial [(0, 0); (1, 1); (0, 1); (1, 0); (0, 2)]);
      [constructor|reflexivity]. }
  split; [exact Hreach|].
  destruct (winner_is_last_mover top_row_won Hreach) as (Hcur & Hmsg & _);
    [discriminate|].
  split; [exact Hcur|exact Hmsg].
Defined.

(** ** Counts, turn and selection *)

Section PhaseInvariant.
Implicit Types (s : GamePage) (r c : nat).

Lemma phase_ok_initial : phase_ok initial.
Proof.
  split; [simpl; lia|]. split; [by intros []|].
  intros _. split; [done|by intros [=]].
Qed.

Lemma onCellClick_phase_ok s r c s' :
  inv s -> phase_ok s -> onCellClick s r c = Ok s' -> phase_ok s'.
Proof.
  intros (Hb & Hs & _ & [Bx Bo]) (Hord & Hpick & Hturn) Hclick.
  destruct (onCellClick_outcome s r c s' Hb Hs Hclick)
    as [->|[(Hw & _ & Hfull & ->)
          |[(Hw & Hsel & Hlt & _ & b' & _ & Hct)
           |(Hw & _ & sr & sc & b1 & b2 & Hsel & _ & _ & _ & Hct)]]].
  - done.
  - destruct (Hturn Hw) as [HX HO].
    split; [done|]. split; [|done]. simpl. intros _.
    destruct (selectedCell s) as [sel|] eqn:Hsel; [by apply Hpick|].
    specialize (Hfull eq_refl).
    destruct (currentPlayer s); simpl in Hfull;
      [specialize (HX eq_refl)|specialize (HO eq_refl)]; repeat split;
      try done; lia.
  - destruct (Hturn Hw) as [HX HO].
    destruct (concludeTurn_cases _ _ Hct) as [(v & Hv & ->)|[[Hw1 _]|[_ ->]]].
    + unfold phase_ok, incr_currentPlayer_count. simpl. rewrite Hsel.
      destruct (currentPlayer s); simpl in *;
        [specialize (HX eq_refl)|specialize (HO eq_refl)];
        (split; [lia|]); (split; [done|]); done.
    + exfalso. apply Hw1. unfold incr_currentPlayer_count. simpl.
      by destruct (currentPlayer s).
    + unfold phase_ok, incr_currentPlayer_count. simpl. rewrite Hsel.
      destruct (currentPlayer s); simpl in *;
        [specialize (HX eq_refl)|specialize (HO eq_refl)];
        (split; [lia|]); (split; [done|]); intros _;
        (split; [intros; try done; lia|intros; try done; lia]).
  - destruct (Hpick ltac:(by rewrite Hsel)) as (Hx3 & Ho3 & _).
    destruct (concludeTurn_cases _ _ Hct) as [(v & Hv & ->)|[[Hw1 _]|[_ ->]]].
    + unfold phase_ok. simpl. split; [lia|]. by split.
    + done.
    + unfold phase_ok. simpl. split; [lia|]. split; [done|]. intros _.
      split; intros _; lia.
Qed.

Lemma reachable_phase_ok s : reachable s -> phase_ok s.
Proof.
  induction 1 as [|s r c s' Hreach IH Hclick|s _ _].
  - apply phase_ok_initial.
  - apply (onCellClick_phase_ok s r c); [by apply reachable_inv|done..].
  - rewrite resetGame_initial. apply phase_ok_initial.
Qed.
End PhaseInvariant.

(** X7. In every reachable state O has placed as many pieces as X or one
    fewer.  While there is no winner, X is to move only when the counts are
    equal, and O only when X is one ahead or all six pieces are down. *)
Theorem counts_follow_turns (s : GamePage) :
  reachable s ->
  oPlayer_count s <= xPlayer_count s <= oPlayer_count s + 1 /\
  (winner s = Blank -> currentPlayer s = xPlayer ->
     xPlayer_count s = oPlayer_count s) /\
  (winner s = Blank -> currentPlayer s = oPlayer ->
     xPlayer_count s = oPlayer_count s + 1 \/
     xPlayer_count s = 3 /\ oPlayer_count s = 3).
Proof.
  intros Hreach. destruct (reachable_phase_ok _ Hreach) as (Hord & _ & Hturn).
  split; [done|]. split; intros Hw; by apply Hturn.
Qed.

Lemma counts_follow_turns_witness :
  reachable two_each /\ xPlayer_count two_each = oPlayer_count two_each.
Proof.
  assert (Hreach : reachable two_each).
  { apply (clicks_reachable initial [(0, 0); (1, 0); (0, 1); (1, 1)]);
      [constructor|reflexivity]. }
  split; [exact Hreach|].
  destruct (counts_follow_turns two_each Hreach) as (_ & HX & _).
  apply HX; reflexivity.
Defined.

(** X8. In every reachable state a cell is selected only in the movement
    phase: both players have all three pieces on the board and nobody has
    won.  So [handleMove] never runs for a player who is still placing. *)
Theorem selection_only_when_all_placed (s : GamePage) (sel : nat * nat) :
  reachable s ->
  selectedCell s = Some sel ->
  xPlayer_count s = 3 /\ oPlayer_count s = 3 /\ winner s = Blank /\
  countCells truthy (board s) = 6.
Proof.
  intros Hreach Hsel.
  destruct (reachable_phase_ok _ Hreach) as (_ & Hpick & _).
  destruct (Hpick ltac:(by rewrite Hsel)) as (Hx & Ho & Hw).
  destruct (reachable_inv _ Hreach) as (_ & _ & [Cx Co] & _).
  repeat (split; [done|]). rewrite countCells_occupied. lia.
Qed.

Lemma selection_only_when_all_placed_witness :
  reachable picked_up /\ selectedCell picked_up = Some (0, 0) /\
  xPlayer_count picked_up = 3 /\ oPlayer_count picked_up = 3.
Proof.
  assert (Hreach : reachable picked_up).
  { apply (clicks_reachable initial opening); [constructor|reflexivity]. }
  split; [exact Hreach|]. split; [reflexivity|].
  destruct (selection_only_when_all_placed picked_up (0, 0) Hreach eq_refl)
    as (Hx & Ho & _).
  split; [exact Hx|exact Ho].
Defined.

(** ** Which cells a click can change *)

(** X9. A click that returns changes at most two cells: the clicked cell,
    if it was empty, may receive the symbol of the player to move, and the
    selected cell, which held that player's piece, may be emptied.  Every
    other cell keeps its value; in particular a piece of the opponent is
    never removed, replaced or moved. *)
Theorem click_changes_own_cells_only (s : GamePage) (r c : nat)
    (s' : GamePage) :
  board_ok (board s) -> selection_ok s ->
  onCellClick s r c = Ok s' ->
  (forall r' c',
     cellValue (board s') r' c' = cellValue (board s) r' c' \/
     ((r', c') = (r, c) /\
      cellValue (board s) r' c' = Ok Blank /\
      cellValue (board s') r' c' = Ok (symbol (currentPlayer s))) \/
     (selectedCell s = Some (r', c') /\
      cellValue (board s) r' c' = Ok (symbol (currentPlayer s)) /\
      cellValue (board s') r' c' = Ok Blank)) /\
  (forall r' c',
     cellValue (board s) r' c' = Ok (symbol (other (currentPlayer s))) ->
     cellValue (board s') r' c' = Ok (symbol (other (currentPlayer s)))).
Proof.
  intros Hb Hs Hclick.
  assert (Hcells : forall r' c',
     cellValue (board s') r' c' = cellValue (board s) r' c' \/
     ((r', c') = (r, c) /\
      cellValue (board s) r' c' = Ok Blank /\
      cellValue (board s') r' c' = Ok (symbol (currentPlayer s))) \/
     (selectedCell s = Some (r', c') /\
      cellValue (board s) r' c' = Ok (symbol (currentPlayer s)) /\
      cellValue (board s') r' c' = Ok Blank)).
  { intros r' c'.
    destruct (onCellClick_outcome s r c s' Hb Hs Hclick)
      as [->|[(_ & _ & _ & ->)
            |[(_ & _ & _ & Hcell & b' & Hset & Hct)
             |(_ & Hcell & sr & sc & b1 & b2 & Hsel & Hown & Hset1 & Hset2
               & Hct)]]]; [by left..| |].
    - destruct (concludeTurn_fields _ _ Hct) as (-> & _).
      rewrite board_incr_currentPlayer_count. simpl.
      rewrite (cellValue_set _ _ _ _ _ r' c' Hset).
      destruct (decide ((r, c) = (r', c'))) as [[= <- <-]|]; [|by left].
      right; left. by repeat split.
    - destruct (concludeTurn_fields _ _ Hct) as (-> & _). simpl.
      rewrite (cellValue_set _ _ _ _ _ r' c' Hset2).
      destruct (decide ((sr, sc) = (r', c'))) as [[= <- <-]|].
      { right; right. by repeat split. }
      rewrite (cellValue_set _ _ _ _ _ r' c' Hset1).
      destruct (decide ((r, c) = (r', c'))) as [[= <- <-]|]; [|by left].
      right; left. by repeat split. }
  split; [exact Hcells|].
  intros r' c' Hopp.
  destruct (Hcells r' c') as [->|[(_ & Hblank & _)|(_ & Hown & _)]];
    [done|rewrite Hopp in *; by destruct (currentPlayer s)..].
Qed.

(** In [picked_up] X moves (0,0) to (1,2); O's piece at (1,1) stays. *)
Lemma click_changes_own_cells_only_witness :
  board_ok (board picked_up) /\ selection_ok picked_up /\
  exists s', onCellClick picked_up 1 2 = Ok s' /\
             cellValue (board s') 1 1 = Ok SymO.
Proof.
  assert (Hs : selection_ok picked_up).
  { intros r c Hsel. injection Hsel as <- <-. reflexivity. }
  split; [apply grid_ok|]. split; [exact Hs|].
  eexists. split; [reflexivity|].
  eapply (click_changes_own_cells_only picked_up 1 2);
    [apply grid_ok|exact Hs|reflexivity|reflexivity].
Defined.

(** ** The life of a selection *)

(** X10. A click makes a cell the selected one only if it is the clicked
    cell and holds a piece of the player to move, and such a click changes
    neither board nor turn.  A selection, once made, is dropped only by
    completing a move to an empty cell; clicking the selected piece again,
    an opponent's piece or anything else keeps some cell selected. *)
Theorem selection_lifecycle (s : GamePage) (r c : nat) (s' : GamePage) :
  board_ok (board s) -> selection_ok s ->
  onCellClick s r c = Ok s' ->
  (forall p, selectedCell s' = Some p ->
     selectedCell s = Some p \/
     (p = (r, c) /\ winner s = Blank /\
      cellValue (board s) r c = Ok (symbol (currentPlayer s)) /\
      board s' = board s /\ currentPlayer s' = currentPlayer s)) /\
  (forall p, selectedCell s = Some p -> selectedCell s' = None ->
     cellValue (board s) r c = Ok Blank /\
     cellValue (board s') r c = Ok (symbol (currentPlayer s)) /\
     cellValue (board s') p.1 p.2 = Ok Blank).
Proof.
  intros Hb Hs Hclick.
  destruct (onCellClick_outcome s r c s' Hb Hs Hclick)
    as [->|[(Hw & Hcell & _ & ->)
          |[(_ & Hsel & _ & _ & b' & _ & Hct)
           |(_ & Hcell & sr & sc & b1 & b2 & Hsel & Hown & Hset1 & Hset2
             & Hct)]]].
  - split; [by left|]. intros p -> [=].
  - split; [|by intros p _ [=]]. intros p [= <-]. by right.
  - destruct (concludeTurn_fields _ _ Hct) as (_ & _ & _ & Es & _).
    revert Es. unfold incr_currentPlayer_count. simpl.
    destruct (currentPlayer s); simpl; rewrite Hsel; intros ->;
      (split; [by intros p [=]|by intros p [=]]).
  - destruct (concludeTurn_fields _ _ Hct) as (Eb & _ & _ & Es & _).
    simpl in Eb, Es. rewrite Es, Eb, Hsel.
    split; [by intros p [=]|]. intros p [= <-] _. simpl.
    assert (Hne : (sr, sc) <> (r, c)).
    { intros [= -> ->]. rewrite Hown in Hcell. by destruct (currentPlayer s). }
    split; [done|]. split.
    + rewrite (cellValue_set _ _ _ _ _ r c Hset2).
      rewrite decide_False by done.
      rewrite (cellValue_set _ _ _ _ _ r c Hset1). by rewrite decide_True.
    + rewrite (cellValue_set _ _ _ _ _ sr sc Hset2). by rewrite decide_True.
Qed.

(** Clicking the selected piece itself does not drop the selection. *)
Lemma selection_lifecycle_witness :
  board_ok (board picked_up) /\ selection_ok picked_up /\
  onCellClick picked_up 0 0 = Ok picked_up /\
  (selectedCell picked_up = Some (0, 0) \/
   (0, 0) = (0, 0) /\ winner picked_up = Blank /\
   cellValue (board picked_up) 0 0 = Ok (symbol (currentPlayer picked_up)) /\
   board picked_up = board picked_up /\
   currentPlayer picked_up = currentPlayer picked_up).
Proof.
  assert (Hs : selection_ok picked_up).
  { intros r c Hsel. injection Hsel as <- <-. reflexivity. }
  split; [apply grid_ok|]. split; [exact Hs|]. split; [reflexivity|].
  destruct (selection_lifecycle picked_up 0 0 picked_up
              (grid_ok _ _ _ _ _ _ _ _ _) Hs eq_refl) as [Hkeep _].
  apply (Hkeep (0, 0)). reflexivity.
Defined.

(** ** The game can always go on *)

Section Progress.
Implicit Types (s : GamePage) (b : Board) (r c : nat).

(** A counted cell can be clicked. *)
Lemma countCells_pos_cell (p : CellValue -> bool) b :
  0 < countCells p b ->
  exists r c v, cellValue b r c = Ok v /\ p v = true.
Proof.
  unfold countCells. intros Hpos.
  destruct (List.filter (fun cell => p (value cell)) (concat b))
    as [|cell rest] eqn:Hf; [simpl in Hpos; lia|].
  assert (Hin : In cell (List.filter (fun cell => p (value cell)) (concat b)))
    by (rewrite Hf; by left).
  apply filter_In in Hin as [Hin Hp].
  apply in_concat in Hin as (row & Hrow & Hcell).
  apply list_elem_of_In, list_elem_of_lookup in Hrow as [r Hr].
  apply list_elem_of_In, list_elem_of_lookup in Hcell as [c Hc].
  exists r, c, (value cell). unfold cellValue. by rewrite Hr, Hc.
Qed.

Lemma countCells_blank b :
  board_ok b -> countCells truthy b + countCells (holds Blank) b = 9.
Proof.
  intros Hb. destruct (board_ok_grid b Hb)
    as (a0 & a1 & a2 & a3 & a4 & a5 & a6 & a7 & a8 & ->).
  rewrite !countCells_grid.
  assert (Hone : forall a, ind (truthy a) + ind (holds Blank a) = 1)
    by (by intros []).
  pose proof (Hone a0). pose proof (Hone a1). pose proof (Hone a2).
  pose proof (Hone a3). pose proof (Hone a4). pose proof (Hone a5).
  pose proof (Hone a6). pose proof (Hone a7). pose proof (Hone a8). lia.
Qed.

(** With at most six pieces down there is an empty cell. *)
Lemma empty_cell_exists s :
  inv s -> exists r c, cellValue (board s) r c = Ok Blank.
Proof.
  intros (Hb & _ & [Hx Ho] & [Bx Bo]).
  pose proof (countCells_blank _ Hb) as Hsum.
  rewrite countCells_occupied in Hsum.
  destruct (countCells_pos_cell (holds Blank) (board s)) as (r & c & v & Hc & Hv);
    [lia|].
  apply bool_decide_eq_true in Hv as ->. eauto.
Qed.

Lemma place_changes_board s r c :
  board_ok (board s) ->
  winner s = Blank -> selectedCell s = None ->
  count s (currentPlayer s) < 3 ->
  cellValue (board s) r c = Ok Blank ->
  exists s', onCellClick s r c = Ok s' /\ board s' <> board s.
Proof.
  intros Hb Hw Hsel Hlt Hcell.
  destruct (handlePlace_placed s r c Hb Hcell Hlt)
    as (b' & s' & Hset & Hct & E).
  exists s'. split; [by rewrite (onCellClick_place _ _ _ Hw Hsel Hlt)|].
  destruct (concludeTurn_fields _ _ Hct) as (-> & _).
  rewrite board_incr_currentPlayer_count. simpl.
  apply (cellValue_differs_board _ _ r c Blank (symbol (currentPlayer s)));
    [done| |by destruct (currentPlayer s)].
  rewrite (cellValue_set _ _ _ _ _ r c Hset). by rewrite decide_True.
Qed.

Lemma move_changes_board s r c sr sc :
  board_ok (board s) ->
  winner s = Blank -> selectedCell s = Some (sr, sc) ->
  cellValue (board s) sr sc = Ok (symbol (currentPlayer s)) ->
  cellValue (board s) r c = Ok Blank ->
  exists s', onCellClick s r c = Ok s' /\ board s' <> board s.
Proof.
  intros Hb Hw Hsel Hown Hcell.
  destruct (handleMove_moved s r c sr sc Hb Hsel Hown Hcell)
    as (b1 & b2 & s' & Hset1 & Hset2 & Hct & E).
  exists s'. split; [by rewrite (onCellClick_move _ _ _ _ Hw Hsel)|].
  destruct (concludeTurn_fields _ _ Hct) as (-> & _). simpl.
  apply (cellValue_differs_board _ _ sr sc (symbol (currentPlayer s)) Blank);
    [done| |by destruct (currentPlayer s)].
  rewrite (cellValue_set _ _ _ _ _ sr sc Hset2). by rewrite decide_True.
Qed.
End Progress.

(** X11. There is no stalemate: from every reachable state without a winner
    some click, or some two clicks (pick a piece, then a target), change the
    board.  While placing, any empty cell will do; once all pieces are down,
    the player to move has a piece to pick and some cell is empty. *)
Theorem some_click_changes_board (s : GamePage) :
  reachable s ->
  winner s = Blank ->
  exists (l : list (nat * nat)) (s' : GamePage),
    length l <= 2 /\ clicks s l = Ok s' /\ board s' <> board s.
Proof.
  intros Hreach Hw. pose proof (reachable_inv _ Hreach) as Hinv.
  destruct (empty_cell_exists _ Hinv) as (r & c & Hcell).
  destruct Hinv as (Hb & Hs & [Hx Ho] & _).
  destruct (selectedCell s) as [[sr sc]|] eqn:Hsel.
  - destruct (move_changes_board s r c sr sc Hb Hw Hsel (Hs _ _ Hsel) Hcell)
      as (s' & E & Hne).
    exists [(r, c)], s'. simpl. rewrite E. by repeat split; try lia.
  - destruct (decide (3 <= count s (currentPlayer s))) as [Hfull|Hfree].
    + destruct (countCells_pos_cell (holds (symbol (currentPlayer s))) (board s))
        as (r1 & c1 & v & Hown & Hv).
      { destruct (currentPlayer s); simpl in *; lia. }
      apply bool_decide_eq_true in Hv as ->.
      assert (E1 : onCellClick s r1 c1 =
                   Ok (set_selectedCell (Some (r1, c1)) s)).
      { rewrite (onCellClick_select _ _ _ Hw Hsel Hfull).
        unfold onSelectPiece. rewrite Hown. simpl. by rewrite decide_True. }
      destruct (move_changes_board (set_selectedCell (Some (r1, c1)) s)
                  r c r1 c1 Hb Hw eq_refl Hown Hcell) as (s' & E & Hne).
      exists [(r1, c1); (r, c)], s'. simpl. rewrite E1. simpl. rewrite E.
      by repeat split; try lia.
    + destruct (place_changes_board s r c Hb Hw Hsel ltac:(lia) Hcell)
        as (s' & E & Hne).
      exists [(r, c)], s'. simpl. rewrite E. by repeat split; try lia.
Qed.

Lemma some_click_changes_board_witness :
  reachable all_placed /\ winner all_placed = Blank /\
  exists (l : list (nat * nat)) (s' : GamePage),
    length l <= 2 /\ clicks all_placed l = Ok s' /\ board s' <> board all_placed.
Proof.
  assert (Hreach : reachable all_placed).
  { apply (clicks_reachable initial
             [(0, 0); (1, 0); (0, 1); (1, 1); (2, 2); (2, 1)]);
      [constructor|reflexivity]. }
  split; [exact Hreach|]. split; [reflexivity|].
  apply (some_click_changes_board all_placed Hreach). reflexivity.
Defined.

(** ** What the board tells about the game *)

(** X12. Nobody wins before X's third piece: in every reachable state with
    a winner, X has placed three pieces, O at least two, and at least five
    cells are occupied. *)
Theorem no_win_before_fifth_piece (s : GamePage) :
  reachable s ->
  winner s <> Blank ->
  xPlayer_count s = 3 /\ 2 <= oPlayer_count s /\
  5 <= countCells truthy (board s).
Proof.
  intros Hreach Hw.
  destruct (reachable_phase_ok _ Hreach) as (Hord & _).
  destruct (reachable_inv _ Hreach) as (Hb & _ & [Hx Ho] & [Bx Bo]).
  destruct (reachable_winner_ok _ Hreach) as [_ Hyes].
  destruct (Hyes Hw) as (Hcur & _ & _ & Hne & Hall).
  assert (Hin : In (winner s, winner s, winner s) (wonLines (board s))).
  { destruct (wonLines (board s)) as [|l rest] eqn:Hwon; [done|].
    rewrite <- (Hall l) by (by left). by left. }
  pose proof (wonLines_count _ _ Hb Hin) as Hthree.
  rewrite countCells_occupied. rewrite Hcur in Hthree.
  destruct (currentPlayer s); simpl in *; lia.
Qed.

Lemma no_win_before_fifth_piece_witness :
  reachable top_row_won /\ winner top_row_won <> Blank /\
  xPlayer_count top_row_won = 3 /\ 2 <= oPlayer_count top_row_won.
Proof.
  assert (Hreach : reachable top_row_won).
  { apply (clicks_reachable initial [(0, 0); (1, 1); (0, 1); (1, 0); (0, 2)]);
      [constructor|reflexivity]. }
  split; [exact Hreach|]. split; [discriminate|].
  destruct (no_win_before_fifth_piece top_row_won Hreach) as (Hx & Ho & _);
    [discriminate|].
  split; [exact Hx|exact Ho].
Defined.

(** X13. In a reachable state without winner, the board alone tells phase
    and turn.  With fewer than six pieces down, the player to move is still
    placing, and it is X exactly when the number of pieces is even.  With
    six pieces down, the player to move has all three pieces on the board
    and a click can no longer place one. *)
Theorem board_tells_phase_and_turn (s : GamePage) :
  reachable s ->
  winner s = Blank ->
  (countCells truthy (board s) < 6 ->
     count s (currentPlayer s) < 3 /\
     selectedCell s = None /\
     (currentPlayer s = xPlayer <->
      Nat.even (countCells truthy (board s)) = true)) /\
  (6 <= countCells truthy (board s) ->
     countCells truthy (board s) = 6 /\ count s (currentPlayer s) = 3).
Proof.
  intros Hreach Hw.
  destruct (reachable_phase_ok _ Hreach) as (Hord & Hpick & Hturn).
  destruct (reachable_inv _ Hreach) as (_ & _ & [Hx Ho] & [Bx Bo]).
  destruct (Hturn Hw) as [HX HO].
  rewrite countCells_occupied, Hx, Ho. split.
  - intros Hfew. split; [|split].
    + destruct (currentPlayer s); simpl;
        [specialize (HX eq_refl)|specialize (HO eq_refl)]; lia.
    + destruct (selectedCell s) as [sel|] eqn:Hsel; [|done].
      destruct (Hpick ltac:(done)) as (? & ? & _). lia.
    + destruct (currentPlayer s);
        [specialize (HX eq_refl)|specialize (HO eq_refl)].
      * split; [intros _|done]. rewrite HX.
        replace (oPlayer_count s + oPlayer_count s) with (2 * oPlayer_count s)
          by lia.
        apply Nat.even_even.
      * split; [done|]. intros Heven.
        destruct HO as [HO|HO]; [|lia]. rewrite HO in Heven.
        replace (oPlayer_count s + 1 + oPlayer_count s)
          with (S (2 * oPlayer_count s)) in Heven by lia.
        rewrite Nat.even_succ, Nat.odd_even in Heven. done.
  - intros Hmany. split; [lia|].
    destruct (currentPlayer s); simpl; lia.
Qed.

Lemma board_tells_phase_and_turn_witness :
  reachable two_each /\ winner two_each = Blank /\
  countCells truthy (board two_each) < 6 /\
  currentPlayer two_each = xPlayer.
Proof.
  assert (Hreach : reachable two_each).
  { apply (clicks_reachable initial [(0, 0); (1, 0); (0, 1); (1, 1)]);
      [constructor|reflexivity]. }
  split; [exact Hreach|]. split; [reflexivity|].
  destruct (board_tells_phase_and_turn two_each Hreach eq_refl) as [Hfew _].
  assert (Hlt : countCells truthy (board two_each) < 6) by (vm_compute; lia).
  split; [exact Hlt|].
  destruct (Hfew Hlt) as (_ & _ & Hturn). apply Hturn. reflexivity.
Defined.
